(** * Groq memory assistant: meeting ledger, time phrases and intent routing

    A shallow embedding of [app.py].  The embedded functions keep the names
    they have in the source.

    Conventions of the model.
    - Text is a [string] holding one [ascii] per code point, for code points
      below 256.  [lower], [isspace] and the digit class are the ones Python
      applies to these code points.  The one source literal outside that
      range (a typographic apostrophe inside a reply) is kept as its UTF-8
      bytes; no operation inspects it.
    - A Python call either returns or raises: [outcome].
    - The two JSON resources are the fields of [files]; a function that
      reads or writes them threads a [files] value ([io]).
    - The clock, the fuzzy parser of the fallback branch and the language
      model are outside the repository: they are parameters. *)

From Stdlib Require Import ZArith List String Ascii Bool Lia Arith.
Import ListNotations.
Local Open Scope string_scope.

(** ** Outcomes of Python calls *)

Inductive exn : Type :=
| ParserError    (* dateutil.parser.ParserError *)
| ValueError
| IndexError
| OverflowError
| LLMError.      (* any failure of the hosted model call *)

Inductive outcome (A : Type) : Type :=
| Ret (a : A)
| Raise (e : exn).
Arguments Ret {A} a.
Arguments Raise {A} e.

Definition obind {A B : Type} (x : outcome A) (k : A -> outcome B) : outcome B :=
  match x with
  | Ret a => k a
  | Raise e => Raise e
  end.

Declare Scope outcome_scope.
Delimit Scope outcome_scope with outcome.
Notation "x <- c ;; k" := (obind c (fun x => k))
  (at level 61, c at next level, right associativity) : outcome_scope.

(** ** Text *)

Module Text.

Definition code (c : ascii) : nat := nat_of_ascii c.

Definition between (lo hi n : nat) : bool := (lo <=? n)%nat && (n <=? hi)%nat.

(** [\d] and [str.isdigit] restricted to decimal digits. *)
Definition isdigit (c : ascii) : bool := between 48 57 (code c).

(** [str.isspace], also the class [\s] of a [str] pattern. *)
Definition isspace (c : ascii) : bool :=
  let n := code c in
  between 9 13 n || between 28 32 n || (n =? 133)%nat || (n =? 160)%nat.

(** [str.lower] on one code point: A-Z, and the upper-case letters of the
    Latin-1 block (0xC0-0xDE without the multiplication sign 0xD7). *)
Definition lower_char (c : ascii) : ascii :=
  let n := code c in
  if between 65 90 n || (between 192 222 n && negb (n =? 215)%nat)
  then ascii_of_nat (n + 32) else c.

Fixpoint lower (s : string) : string :=
  match s with
  | EmptyString => EmptyString
  | String c r => String (lower_char c) (lower r)
  end.

Fixpoint lstrip (s : string) : string :=
  match s with
  | EmptyString => EmptyString
  | String c r => if isspace c then lstrip r else s
  end.

(** [rstrip] drops the trailing run of white space. *)
Fixpoint rstrip (s : string) : string :=
  match s with
  | EmptyString => EmptyString
  | String c r =>
      match rstrip r with
      | EmptyString => if isspace c then EmptyString else String c EmptyString
      | r' => String c r'
      end
  end.

Definition strip (s : string) : string := rstrip (lstrip s).

(** [sub in s]. *)
Fixpoint contains (sub s : string) : bool :=
  prefix sub s ||
  match s with
  | EmptyString => false
  | String _ r => contains sub r
  end.

(** [s.find(sub)], [None] for -1. *)
Fixpoint find (sub s : string) : option nat :=
  if prefix sub s then Some 0%nat
  else match s with
       | EmptyString => None
       | String _ r => option_map S (find sub r)
       end.

Fixpoint drop (n : nat) (s : string) : string :=
  match n, s with
  | O, _ => s
  | S k, EmptyString => EmptyString
  | S k, String _ r => drop k r
  end.

Fixpoint take (n : nat) (s : string) : string :=
  match n, s with
  | O, _ => EmptyString
  | S k, EmptyString => EmptyString
  | S k, String c r => String c (take k r)
  end.

(** [s.replace(old, new)] for a non-empty [old]: occurrences are taken left
    to right and do not overlap.  [skip] counts the characters of the
    occurrence just replaced that are still to be passed over. *)
Fixpoint replace_from (old new : string) (skip : nat) (s : string) : string :=
  match s with
  | EmptyString => EmptyString
  | String c r =>
      match skip with
      | S k => replace_from old new k r
      | O =>
          if prefix old s
          then new ++ replace_from old new (String.length old - 1) r
          else String c (replace_from old new 0 r)
      end
  end.

Definition replace (old new s : string) : string := replace_from old new 0 s.

(** [s.split(sep)] for a non-empty [sep]: every non-overlapping occurrence,
    left to right, ends a part.  [cur] is the part being read. *)
Fixpoint split_from (sep : string) (skip : nat) (cur s : string) : list string :=
  match s with
  | EmptyString => [cur]
  | String c r =>
      match skip with
      | S k => split_from sep k cur r
      | O =>
          if prefix sep s
          then cur :: split_from sep (String.length sep - 1) EmptyString r
          else split_from sep 0 (cur ++ String c EmptyString) r
      end
  end.

Definition split (sep s : string) : list string := split_from sep 0 EmptyString s.

End Text.

(** ** Calendar: the part of [datetime] the program uses *)

Module Calendar.
Local Open Scope Z_scope.

(** A naive [datetime.datetime]. *)
Record datetime : Type := mkdatetime {
  year : Z; month : Z; day : Z;
  hour : Z; minute : Z; second : Z; microsecond : Z
}.

Definition is_leap (y : Z) : bool :=
  (y mod 4 =? 0) && (negb (y mod 100 =? 0) || (y mod 400 =? 0)).

Definition DAYS_IN_MONTH (m : Z) : Z :=
  match m with
  | 1 => 31 | 2 => 28 | 3 => 31 | 4 => 30 | 5 => 31 | 6 => 30
  | 7 => 31 | 8 => 31 | 9 => 30 | 10 => 31 | 11 => 30 | 12 => 31
  | _ => -1
  end.

Definition DAYS_BEFORE_MONTH (m : Z) : Z :=
  match m with
  | 1 => 0 | 2 => 31 | 3 => 59 | 4 => 90 | 5 => 120 | 6 => 151
  | 7 => 181 | 8 => 212 | 9 => 243 | 10 => 273 | 11 => 304 | 12 => 334
  | _ => -1
  end.

Definition days_before_year (y : Z) : Z :=
  let y1 := y - 1 in y1 * 365 + y1 / 4 - y1 / 100 + y1 / 400.

Definition days_in_month (y m : Z) : Z :=
  if (m =? 2) && is_leap y then 29 else DAYS_IN_MONTH m.

Definition days_before_month (y m : Z) : Z :=
  DAYS_BEFORE_MONTH m + (if (2 <? m) && is_leap y then 1 else 0).

Definition ymd2ord (y m d : Z) : Z :=
  days_before_year y + days_before_month y m + d.

Definition DI400Y : Z := 146097.
Definition DI100Y : Z := 36524.
Definition DI4Y : Z := 1461.
Definition MAXORDINAL : Z := 3652059.

Definition ord2ymd (n0 : Z) : Z * Z * Z :=
  let n := n0 - 1 in
  let n400 := n / DI400Y in let n := n mod DI400Y in
  let y := n400 * 400 + 1 in
  let n100 := n / DI100Y in let n := n mod DI100Y in
  let n4 := n / DI4Y in let n := n mod DI4Y in
  let n1 := n / 365 in let n := n mod 365 in
  let y := y + n100 * 100 + n4 * 4 + n1 in
  if (n1 =? 4) || (n100 =? 4) then (y - 1, 12, 31)
  else
    let leapyear := (n1 =? 3) && (negb (n4 =? 24) || (n100 =? 3)) in
    let m := Z.shiftr (n + 50) 5 in
    let preceding := DAYS_BEFORE_MONTH m + (if (2 <? m) && leapyear then 1 else 0) in
    if n <? preceding
    then
      let m := m - 1 in
      let preceding :=
        preceding - (DAYS_IN_MONTH m + (if (m =? 2) && leapyear then 1 else 0)) in
      (y, m, n - preceding + 1)
    else (y, m, n - preceding + 1).

Definition toordinal (dt : datetime) : Z := ymd2ord (year dt) (month dt) (day dt).

(** [dt.weekday()]: Monday is 0. *)
Definition weekday (dt : datetime) : Z := (toordinal dt + 6) mod 7.

(** [dt + timedelta(days=k)]. *)
Definition plus_days (dt : datetime) (k : Z) : outcome datetime :=
  let n := toordinal dt + k in
  if (0 <? n) && (n <=? MAXORDINAL)
  then let '(y, m, d) := ord2ymd n in
       Ret (mkdatetime y m d (hour dt) (minute dt) (second dt) (microsecond dt))
  else Raise OverflowError.

(** The range checks of the [datetime] constructor. *)
Definition valid_datetime (dt : datetime) : bool :=
  (1 <=? year dt) && (year dt <=? 9999) &&
  (1 <=? month dt) && (month dt <=? 12) &&
  (1 <=? day dt) && (day dt <=? days_in_month (year dt) (month dt)) &&
  (0 <=? hour dt) && (hour dt <=? 23) &&
  (0 <=? minute dt) && (minute dt <=? 59) &&
  (0 <=? second dt) && (second dt <=? 59) &&
  (0 <=? microsecond dt) && (microsecond dt <=? 999999).

Definition new_datetime (y m d h mi : Z) : outcome datetime :=
  let dt := mkdatetime y m d h mi 0 0 in
  if valid_datetime dt then Ret dt else Raise ValueError.

(** [a < b] on naive datetimes: the fields compared as a tuple. *)
Definition fields (dt : datetime) : list Z :=
  [year dt; month dt; day dt; hour dt; minute dt; second dt; microsecond dt].

Fixpoint lex_ltb (a b : list Z) : bool :=
  match a, b with
  | x :: a', y :: b' => (x <? y) || ((x =? y) && lex_ltb a' b')
  | [], _ :: _ => true
  | _, [] => false
  end.

Definition datetime_ltb (a b : datetime) : bool := lex_ltb (fields a) (fields b).

(** *** Formatting *)

Definition digit (n : Z) : ascii := ascii_of_nat (48 + Z.to_nat n).

Definition pad2 (n : Z) : string :=
  String (digit (n / 10)) (String (digit (n mod 10)) EmptyString).

(** [%Y] is written by the C library's [strftime], which writes the year as
    a plain decimal number: four digits from the year 1000 on, and no padding
    below it ([datetime(999, 1, 1).strftime("%Y")] is ["999"], that of the
    year 5 is ["5"]).  The other fields, [%m], [%d], [%H] and [%M], are
    written on two digits. *)
Definition format_Y (n : Z) : string :=
  if n <? 10 then String (digit n) EmptyString
  else if n <? 100 then pad2 n
  else if n <? 1000 then
    String (digit (n / 100)) (String (digit (n / 10 mod 10))
      (String (digit (n mod 10)) EmptyString))
  else
    String (digit (n / 1000)) (String (digit (n / 100 mod 10))
      (String (digit (n / 10 mod 10)) (String (digit (n mod 10)) EmptyString))).

(** [dt.strftime("%Y-%m-%d")]. *)
Definition strftime_date (dt : datetime) : string :=
  (format_Y (year dt) ++ "-" ++ pad2 (month dt) ++ "-" ++ pad2 (day dt))%string.

(** [dt.strftime("%Y-%m-%d %H:%M")]. *)
Definition strftime (dt : datetime) : string :=
  (strftime_date dt ++ " " ++ pad2 (hour dt) ++ ":" ++ pad2 (minute dt))%string.

(** *** [datetime.strptime(s, "%Y-%m-%d %H:%M")]

    The format is compiled to the regular expression
    [(\d\d\d\d)-(1[0-2]|0[1-9]|[1-9])-(3[0-1]|[1-2]\d|0[1-9]|[1-9]| [1-9])\s+(2[0-3]|[0-1]\d|\d):([0-5]\d|\d)],
    matched at the start of the string; text left after the match is an
    error, and so is a date the constructor refuses.  After every group
    comes a character that no digit matches, so the first alternative that
    matches is the one the match keeps: each reader below commits to it. *)

Definition digit_val (c : ascii) : option Z :=
  if Text.isdigit c then Some (Z.of_nat (Text.code c) - 48) else None.

Definition reader (A : Type) : Type := string -> option (A * string).

(** Two characters read as digits [a] and [b] accepted by [ok]. *)
Definition two_digits (ok : Z -> Z -> bool) : reader Z := fun s =>
  match s with
  | String c1 (String c2 r) =>
      match digit_val c1, digit_val c2 with
      | Some a, Some b => if ok a b then Some (10 * a + b, r) else None
      | _, _ => None
      end
  | _ => None
  end.

Definition one_digit (ok : Z -> bool) : reader Z := fun s =>
  match s with
  | String c1 r =>
      match digit_val c1 with
      | Some a => if ok a then Some (a, r) else None
      | None => None
      end
  | _ => None
  end.

Definition orelse {A : Type} (p q : reader A) : reader A := fun s =>
  match p s with
  | Some x => Some x
  | None => q s
  end.

Definition lit (c : ascii) : reader unit := fun s =>
  match s with
  | String c1 r => if Ascii.eqb c1 c then Some (tt, r) else None
  | _ => None
  end.

Definition read_Y : reader Z := fun s =>
  match two_digits (fun _ _ => true) s with
  | Some (hi, r) =>
      match two_digits (fun _ _ => true) r with
      | Some (lo, r') => Some (100 * hi + lo, r')
      | None => None
      end
  | None => None
  end.

Definition read_m : reader Z :=
  orelse (two_digits (fun a b => ((a =? 1) && (b <=? 2)) || ((a =? 0) && (1 <=? b))))
         (one_digit (fun a => 1 <=? a)).

Definition read_d : reader Z :=
  orelse (two_digits (fun a b => ((a =? 3) && (b <=? 1))
                                 || ((1 <=? a) && (a <=? 2))
                                 || ((a =? 0) && (1 <=? b))))
    (orelse (one_digit (fun a => 1 <=? a))
            (fun s => match lit " " s with
                      | Some (_, r) => one_digit (fun a => 1 <=? a) r
                      | None => None
                      end)).

Definition read_H : reader Z :=
  orelse (two_digits (fun a b => ((a =? 2) && (b <=? 3)) || (a <=? 1)))
         (one_digit (fun _ => true)).

Definition read_M : reader Z :=
  orelse (two_digits (fun a _ => a <=? 5)) (one_digit (fun _ => true)).

(** [\s+] *)
Definition read_spaces : reader unit := fun s =>
  match s with
  | String c r => if Text.isspace c then Some (tt, Text.lstrip r) else None
  | _ => None
  end.

Definition then_ {A B : Type} (p : reader A) (k : A -> reader B) : reader B := fun s =>
  match p s with
  | Some (a, r) => k a r
  | None => None
  end.

Definition read_fields : reader (Z * Z * Z * Z * Z) :=
  then_ read_Y (fun y => then_ (lit "-") (fun _ =>
  then_ read_m (fun m => then_ (lit "-") (fun _ =>
  then_ read_d (fun d => then_ read_spaces (fun _ =>
  then_ read_H (fun h => then_ (lit ":") (fun _ =>
  then_ read_M (fun mi r => Some ((y, m, d, h, mi), r)))))))))).

Definition strptime (s : string) : outcome datetime :=
  match read_fields s with
  | Some ((y, m, d, h, mi), EmptyString) => new_datetime y m d h mi
  | _ => Raise ValueError
  end.

End Calendar.

Import Calendar.

(** ** The clock-time token

    [re.search(r"\d{1,2}(:\d{2})?\s?(am|pm)?", text)].  Once the first digit
    is found every later part of the pattern is optional, so the greedy
    choice at each part is the match the engine returns: no backtracking
    takes place. *)

Module TimeToken.

(** [\d{1,2}]: the matched digits and the text after them. *)
Definition digits12 (s : string) : option (string * string) :=
  match s with
  | String c1 r1 =>
      if Text.isdigit c1 then
        match r1 with
        | String c2 r2 =>
            if Text.isdigit c2
            then Some (String c1 (String c2 EmptyString), r2)
            else Some (String c1 EmptyString, r1)
        | EmptyString => Some (String c1 EmptyString, r1)
        end
      else None
  | EmptyString => None
  end.

(** [(:\d{2})?] *)
Definition opt_minutes (s : string) : string * string :=
  match s with
  | String c (String d1 (String d2 r)) =>
      if Ascii.eqb c ":" && Text.isdigit d1 && Text.isdigit d2
      then (String c (String d1 (String d2 EmptyString)), r)
      else (EmptyString, s)
  | _ => (EmptyString, s)
  end.

(** [\s?] *)
Definition opt_space (s : string) : string * string :=
  match s with
  | String c r => if Text.isspace c then (String c EmptyString, r) else (EmptyString, s)
  | EmptyString => (EmptyString, s)
  end.

(** [(am|pm)?] *)
Definition opt_ampm (s : string) : string * string :=
  if prefix "am" s then ("am", Text.drop 2 s)
  else if prefix "pm" s then ("pm", Text.drop 2 s)
  else (EmptyString, s).

(** The pattern matched at the start of [s]: the matched text and the rest. *)
Definition match_here (s : string) : option (string * string) :=
  match digits12 s with
  | Some (h, r1) =>
      let '(m, r2) := opt_minutes r1 in
      let '(w, r3) := opt_space r2 in
      let '(a, r4) := opt_ampm r3 in
      Some (h ++ m ++ w ++ a, r4)
  | None => None
  end.

(** [time_match.group()] of the first match, [None] when there is none. *)
Fixpoint search (text : string) : option string :=
  match match_here text with
  | Some (g, _) => Some g
  | None =>
      match text with
      | EmptyString => None
      | String _ r => search r
      end
  end.



End TimeToken.

(** ** The time-phrase interpreter *)

Section Interpreter.
Local Open Scope Z_scope.
Local Open Scope outcome_scope.

(** [datetime.now()]. *)
Variable now : datetime.
(** [date_parser.parse(s)], the strict call of the two keyword branches. *)
Variable date_parser_parse : string -> outcome datetime.
(** [date_parser.parse(s, fuzzy=True, default=d)], the call of the fallback. *)
Variable fuzzy_parse : string -> datetime -> outcome datetime.

Definition days_map : list string :=
  ["monday"; "tuesday"; "wednesday"; "thursday"; "friday"; "saturday"; "sunday"].

(** Lines 62-66, and again 74-78: the base date, the clock-time token or
    "9am", the strict parse of both, the fixed format. *)
Definition date_with_clock (days : Z) (text : string) : outcome (option string) :=
  base_date <- plus_days now days ;;
  let time_str :=
    match TimeToken.search text with
    | Some g => g
    | None => "9am"%string
    end in
  dt <- date_parser_parse (strftime_date base_date ++ " " ++ time_str)%string ;;
  Ret (Some (strftime dt)).

Definition days_ahead (i : Z) : Z :=
  let d := (i - weekday now + 7) mod 7 in
  if d =? 0 then 7 else d.

(** The [for i, day in enumerate(days_map)] loop from index [i] on; [None]
    when no weekday phrase is found and the loop falls through. *)
Fixpoint next_weekday (i : Z) (days : list string) (text : string)
  : option (outcome (option string)) :=
  match days with
  | [] => None
  | day :: rest =>
      if Text.contains ("next " ++ day) text
      then Some (date_with_clock (days_ahead i) text)
      else next_weekday (i + 1) rest text
  end.

(** [parse_natural_datetime(text)]; Python's [None] is [Ret None]. *)
Definition parse_natural_datetime (text0 : string) : outcome (option string) :=
  let text := Text.strip (Text.lower text0) in
  if Text.contains "tomorrow" text then date_with_clock 1 text
  else
    match next_weekday 0 days_map text with
    | Some r => r
    | None =>
        match fuzzy_parse text now with
        | Ret dt => Ret (Some (strftime dt))
        | Raise _ => Ret None
        end
    end.

End Interpreter.

(** ** [dateutil]'s strict parse on a date followed by a clock-time token

    The keyword branches only ever pass strings ["YYYY-MM-DD " ++ token],
    the token being a match of the pattern above or "9am".  On such a string
    the library reads the three date numbers, then:
    - [H:MM] or [HH:MM] sets hour and minute;
    - two digits without minutes set the hour;
    - one digit without minutes is an hour only when am/pm follows, and is
      otherwise taken for a fourth date number, which is an error;
    - am/pm after an hour that is already set needs an hour from 0 to 12;
    - the fields must make a [datetime].
    Every failure is a [ParserError].  Strings of another shape are outside
    this model (it answers [ParserError]); the examples below do not use
    them. *)

Module Dateutil.
Local Open Scope Z_scope.

Inductive ampm : Type := AM | PM.

Definition adjust_ampm (h : Z) (a : ampm) : Z :=
  match a with
  | PM => if h <? 12 then h + 12 else h
  | AM => if h =? 12 then 0 else h
  end.

Definition ampm_of (s : string) : option ampm :=
  if String.eqb s "am" then Some AM
  else if String.eqb s "pm" then Some PM
  else None.

Definition number (s : string) : option Z :=
  match s with
  | String c1 EmptyString => digit_val c1
  | String c1 (String c2 EmptyString) =>
      match digit_val c1, digit_val c2 with
      | Some a, Some b => Some (10 * a + b)
      | _, _ => None
      end
  | _ => None
  end.

(** Hour and minute from the parts of a token. *)
Definition clock (hh mm ap : string) : option (Z * Z) :=
  match number hh with
  | None => None
  | Some h =>
      let with_ampm (h : Z) : option Z :=
        match ampm_of ap with
        | None => Some h
        | Some a => if h <=? 12 then Some (adjust_ampm h a) else None
        end in
      match mm with
      | String _ digits =>
          match number digits, with_ampm h with
          | Some mi, Some h' => Some (h', mi)
          | _, _ => None
          end
      | EmptyString =>
          if (String.length hh =? 2)%nat
          then option_map (fun h' => (h', 0)) (with_ampm h)
          else option_map (fun a => (adjust_ampm h a, 0)) (ampm_of ap)
      end
  end.

Definition read_date : reader (Z * Z * Z) :=
  then_ read_Y (fun y => then_ (lit "-") (fun _ =>
  then_ (two_digits (fun _ _ => true)) (fun m => then_ (lit "-") (fun _ =>
  then_ (two_digits (fun _ _ => true)) (fun d => then_ (lit " ") (fun _ r =>
  Some ((y, m, d), r))))))).

Definition parse (timestr : string) : outcome datetime :=
  match read_date timestr with
  | Some ((y, m, d), tok) =>
      match TimeToken.digits12 tok with
      | Some (hh, r1) =>
          let '(mm, r2) := TimeToken.opt_minutes r1 in
          let '(_, r3) := TimeToken.opt_space r2 in
          let '(ap, r4) := TimeToken.opt_ampm r3 in
          match r4, clock hh mm ap with
          | EmptyString, Some (h, mi) =>
              match new_datetime y m d h mi with
              | Ret dt => Ret dt
              | Raise _ => Raise ParserError
              end
          | _, _ => Raise ParserError
          end
      | None => Raise ParserError
      end
  | None => Raise ParserError
  end.

(** A fuzzy parser that understands nothing: it stands for the fallback in
    examples that never reach it. *)
Definition fuzzy_rejects (_ : string) (_ : datetime) : outcome datetime :=
  Raise ParserError.

End Dateutil.

(** ** The two JSON resources *)

Record meeting : Type := mkmeeting { title : string; time : string }.

Inductive role : Type := human | ai.

Record message : Type := mkmessage { type : role; content : string }.

(** The working directory: each resource is absent or holds a value. *)
Record files : Type := mkfiles {
  meetings_json : option (list meeting);
  history_json : option (list message)
}.

(** A path names one resource of the directory. *)
Record path (A : Type) : Type := mkpath {
  read : files -> option A;
  write : A -> files -> files
}.
Arguments read {A} p fs.
Arguments write {A} p data fs.

Definition MEETINGS_FILE : path (list meeting) :=
  mkpath _ meetings_json (fun data fs => mkfiles (Some data) (history_json fs)).

Definition HISTORY_FILE : path (list message) :=
  mkpath _ history_json (fun data fs => mkfiles (meetings_json fs) (Some data)).

(** Code that reads and writes the resources and may raise. *)
Definition io (A : Type) : Type := files -> outcome A * files.

Definition ret {A : Type} (a : A) : io A := fun fs => (Ret a, fs).

Definition bind {A B : Type} (c : io A) (k : A -> io B) : io B := fun fs =>
  match c fs with
  | (Ret a, fs') => k a fs'
  | (Raise e, fs') => (Raise e, fs')
  end.

(** [try: c  except Exception: h] *)
Definition try_except {A : Type} (c : io A) (h : io A) : io A := fun fs =>
  match c fs with
  | (Ret a, fs') => (Ret a, fs')
  | (Raise _, fs') => h fs'
  end.

Definition lift {A : Type} (x : outcome A) : io A := fun fs => (x, fs).

Declare Scope io_scope.
Delimit Scope io_scope with io.
Notation "x <- c ;; k" := (bind c (fun x => k))
  (at level 61, c at next level, right associativity) : io_scope.
Notation "c ;;; k" := (bind c (fun _ => k))
  (at level 61, right associativity) : io_scope.

Definition load_json {A : Type} (file_path : path A) (default_value : A) : io A :=
  fun fs =>
    match read file_path fs with
    | Some data => (Ret data, fs)
    | None => (Ret default_value, fs)
    end.

Definition save_json {A : Type} (file_path : path A) (data : A) : io unit :=
  fun fs => (Ret tt, write file_path data fs).

(** ** The meeting ledger *)

Section Ledger.
Local Open Scope io_scope.

(** The comprehension of [cleanup_old_meetings]: the first stored time the
    format refuses raises. *)
Fixpoint active_meetings (now : datetime) (meetings : list meeting)
  : outcome (list meeting) :=
  match meetings with
  | [] => Ret []
  | m :: rest =>
      obind (strptime (time m)) (fun dt =>
      obind (active_meetings now rest) (fun active =>
      Ret (if datetime_ltb now dt then m :: active else active)))
  end.

Definition cleanup_old_meetings (now : datetime) : io unit :=
  meetings <- load_json MEETINGS_FILE [] ;;
  active <- lift (active_meetings now meetings) ;;
  save_json MEETINGS_FILE active.

Definition add_meeting (title0 time_str : string) : io string :=
  meetings <- load_json MEETINGS_FILE [] ;;
  save_json MEETINGS_FILE (meetings ++ [mkmeeting title0 time_str])%list ;;;
  ret ("Meeting '" ++ title0 ++ "' scheduled for " ++ time_str ++ ".")%string.

Definition show_meetings : io string :=
  meetings <- load_json MEETINGS_FILE [] ;;
  match meetings with
  | [] => ret "No upcoming meetings found."%string
  | _ =>
      ret (fold_left
             (fun result m =>
                (result ++ "- " ++ title m ++ " at " ++ time m ++ String "010" "")%string)
             meetings
             (" Upcoming Meetings:" ++ String "010" "")%string)
  end.

Definition same_title (t : string) (m : meeting) : bool :=
  String.eqb (Text.lower (title m)) (Text.lower t).

Definition delete_meeting (title0 : string) : io string :=
  meetings <- load_json MEETINGS_FILE [] ;;
  let updated := filter (fun m => negb (same_title title0 m)) meetings in
  save_json MEETINGS_FILE updated ;;;
  ret (if (List.length updated <? List.length meetings)%nat
       then ("Deleted meeting '" ++ title0 ++ "'.")%string
       else "Meeting not found."%string).

End Ledger.

(** ** The intent router *)

(** LangChain's two message classes. *)
Inductive lc_message : Type :=
| HumanMessage (content : string)
| AIMessage (content : string).

Definition of_record (m : message) : lc_message :=
  match type m with
  | human => HumanMessage (content m)
  | ai => AIMessage (content m)
  end.

Definition to_record (m : lc_message) : message :=
  match m with
  | HumanMessage c => mkmessage human c
  | AIMessage c => mkmessage ai c
  end.

Definition add_keywords : list string :=
  ["add meeting"; "schedule"; "make meeting"; "create meeting"; "new meeting"].
Definition show_keywords : list string :=
  ["show meetings"; "list meetings"; "upcoming meetings"; "view meetings"; "any meetings"].
Definition delete_keywords : list string :=
  ["delete meeting"; "remove meeting"; "cancel meeting"].

(** [any(k in text for k in keywords)] *)
Definition any_in (keywords : list string) (text : string) : bool :=
  existsb (fun k => Text.contains k text) keywords.

(** [for kw in keywords: title = title.replace(kw, "")] *)
Definition strip_keywords (keywords : list string) (title0 : string) : string :=
  fold_left (fun t kw => Text.replace kw "" t) keywords title0.

(** [parts[i]] *)
Definition item (parts : list string) (i : nat) : outcome string :=
  match nth_error parts i with
  | Some p => Ret p
  | None => Raise IndexError
  end.

(** The title and the time text the add branch takes from the utterance
    (lines 151-156). *)
Definition add_title (user_input : string) : outcome string :=
  obind (item (Text.split " at " user_input) 0) (fun p0 =>
  Ret (Text.strip (strip_keywords add_keywords p0))).

Definition add_time_text (user_input : string) : outcome string :=
  obind (item (Text.split " at " user_input) 1) (fun p1 => Ret (Text.strip p1)).

(** Truth value of [parsed_time]. *)
Definition truthy (x : option string) : option string :=
  match x with
  | Some EmptyString => None
  | _ => x
  end.

Definition reply_time_not_understood : string :=
  "I couldn’t understand the time. Try 'schedule meeting team sync tomorrow 3pm'.".
Definition reply_provide_time : string :=
  "Please provide a time, e.g. 'schedule meeting with HR at 2pm'.".
Definition reply_parse_failure : string :=
  "Couldn't parse meeting details properly.".

Section Router.
Local Open Scope io_scope.

Variable now : datetime.
Variable date_parser_parse : string -> outcome datetime.
Variable fuzzy_parse : string -> datetime -> outcome datetime.
(** [llm.invoke(messages).content] *)
Variable llm_invoke : list lc_message -> outcome string.

Inductive intent : Type := AddMeeting | ShowMeetings | DeleteMeeting | RegularChat.

(** The [if]/[elif] cascade on the lower-cased utterance. *)
Definition classify (user_input : string) : intent :=
  let text := Text.lower user_input in
  if any_in add_keywords text then AddMeeting
  else if any_in show_keywords text then ShowMeetings
  else if any_in delete_keywords text then DeleteMeeting
  else RegularChat.

(** The body of the [try] of the add branch. *)
Definition add_branch (user_input : string) : io string :=
  let text := Text.lower user_input in
  if Text.contains " at " text then
    title0 <- lift (add_title user_input) ;;
    time_text <- lift (add_time_text user_input) ;;
    parsed_time <- lift (parse_natural_datetime now date_parser_parse fuzzy_parse time_text) ;;
    match truthy parsed_time with
    | Some t => add_meeting title0 t
    | None => ret reply_time_not_understood
    end
  else ret reply_provide_time.

Definition chat_with_ai (user_input : string) : io string :=
  history <- load_json HISTORY_FILE [] ;;
  let messages := map of_record history in
  reply <-
    match classify user_input with
    | AddMeeting =>
        r <- try_except (add_branch user_input) (ret reply_parse_failure) ;;
        ret (messages, r)
    | ShowMeetings =>
        r <- show_meetings ;; ret (messages, r)
    | DeleteMeeting =>
        r <- delete_meeting (Text.strip (strip_keywords delete_keywords user_input)) ;;
        ret (messages, r)
    | RegularChat =>
        let messages1 := (messages ++ [HumanMessage user_input])%list in
        r <- lift (llm_invoke messages1) ;;
        ret ((messages1 ++ [AIMessage r])%list, r)
    end ;;
  let '(messages', ai_reply) := reply in
  save_json HISTORY_FILE (map to_record messages') ;;;
  ret ai_reply.

End Router.

(** A language model that is out of reach, for examples that never call it. *)
Definition llm_unreachable (_ : list lc_message) : outcome string := Raise LLMError.

(** ** Vocabulary of the statements *)

(** What [load_json] returns for each resource. *)
Definition meetings_of (fs : files) : list meeting :=
  match meetings_json fs with
  | Some l => l
  | None => []
  end.

Definition history_of (fs : files) : list message :=
  match history_json fs with
  | Some l => l
  | None => []
  end.

(** The first part of a split: the text before the first separator. *)
Definition before_first (sep s : string) : string :=
  match Text.find sep s with
  | Some j => Text.take j s
  | None => s
  end.

(** No decimal digit occurs in the text. *)
Fixpoint no_digit (s : string) : bool :=
  match s with
  | EmptyString => true
  | String c r => negb (Text.isdigit c) && no_digit r
  end.

(** The texts the clock-time pattern matches: one or two digits, then
    optionally a colon and two digits, then optionally one white-space
    character, then optionally "am" or "pm". *)
Inductive hour_part : string -> Prop :=
| hour_one (c : ascii) : Text.isdigit c = true -> hour_part (String c EmptyString)
| hour_two (c d : ascii) :
    Text.isdigit c = true -> Text.isdigit d = true ->
    hour_part (String c (String d EmptyString)).

Inductive minutes_part : string -> Prop :=
| minutes_none : minutes_part EmptyString
| minutes_some (c d : ascii) :
    Text.isdigit c = true -> Text.isdigit d = true ->
    minutes_part (String ":" (String c (String d EmptyString))).

Inductive space_part : string -> Prop :=
| space_none : space_part EmptyString
| space_some (c : ascii) : Text.isspace c = true -> space_part (String c EmptyString).

Inductive ampm_part : string -> Prop :=
| ampm_none : ampm_part EmptyString
| ampm_am : ampm_part "am"
| ampm_pm : ampm_part "pm".

Inductive clock_token : string -> Prop :=
| clock_token_parts (h m w a : string) :
    hour_part h -> minutes_part m -> space_part w -> ampm_part a ->
    clock_token (h ++ m ++ w ++ a).

(** The token handed to the strict parser. *)
Definition token_or_default (text : string) : string :=
  match TimeToken.search text with
  | Some g => g
  | None => "9am"
  end.


(** The "next <weekday>" rule of the specification, for the weekday of
    index [i], taken on its own. *)
Definition spec_next_weekday (now : datetime) (dp : string -> outcome datetime)
  (i : Z) (text : string) : outcome (option string) :=
  let d := ((i - weekday now + 7) mod 7)%Z in
  let ahead := if (d =? 0)%Z then 7%Z else d in
  obind (plus_days now ahead) (fun base_date =>
  obind (dp (strftime_date base_date ++ " " ++ token_or_default text)) (fun dt =>
  Ret (Some (strftime dt)))).

(** The field ranges of a [datetime] the format writes. *)
Record in_range (dt : datetime) : Prop := {
  year_range : (1 <= year dt <= 9999)%Z;
  month_range : (1 <= month dt <= 12)%Z;
  day_range : (1 <= day dt <= days_in_month (year dt) (month dt))%Z;
  hour_range : (0 <= hour dt <= 23)%Z;
  minute_range : (0 <= minute dt <= 59)%Z
}.

(** Minutes are the finest field the format keeps. *)
Definition to_minute (dt : datetime) : datetime :=
  mkdatetime (year dt) (month dt) (day dt) (hour dt) (minute dt) 0 0.

(** The lexical form ["YYYY-MM-DD HH:MM"]. *)
Definition fixed_form (s : string) : bool :=
  match s with
  | String y1 (String y2 (String y3 (String y4 (String s1
    (String m1 (String m2 (String s2 (String d1 (String d2 (String s3
    (String h1 (String h2 (String s4 (String n1 (String n2 EmptyString)))))))))))))))
    =>
      forallb Text.isdigit [y1; y2; y3; y4; m1; m2; d1; d2; h1; h2; n1; n2]
      && Ascii.eqb s1 "-" && Ascii.eqb s2 "-" && Ascii.eqb s3 " " && Ascii.eqb s4 ":"
  | _ => false
  end.

(** A stored time is in the fixed form and the format reads it back. *)
Definition time_ok (m : meeting) : Prop :=
  fixed_form (time m) = true /\ exists dt, strptime (time m) = Ret dt.

(** A stored time that [strftime] wrote, with the fixed format, from a
    well-formed [datetime]. *)
Definition written (m : meeting) : Prop :=
  exists dt, valid_datetime dt = true /\ time m = strftime dt.

(** A stored time the format reads back. *)
Definition readable (m : meeting) : Prop := exists dt, strptime (time m) = Ret dt.

(** The test of [cleanup_old_meetings] on one meeting. *)
Definition still_ahead (now : datetime) (m : meeting) : bool :=
  match strptime (time m) with
  | Ret dt => datetime_ltb now dt
  | Raise _ => false
  end.

(** What the process does to the ledger: a turn of the router, or the
    pruning at start-up, each at its own clock reading. *)
Inductive operation : Type :=
| Turn (now : datetime) (user_input : string)
| Prune (now : datetime).

Section Runs.
Variable date_parser_parse : string -> outcome datetime.
Variable fuzzy_parse : string -> datetime -> outcome datetime.
Variable llm_invoke : list lc_message -> outcome string.

Definition step (fs : files) (op : operation) : files :=
  match op with
  | Turn now u => snd (chat_with_ai now date_parser_parse fuzzy_parse llm_invoke u fs)
  | Prune now => snd (cleanup_old_meetings now fs)
  end.

Definition run (ops : list operation) (fs : files) : files := fold_left step ops fs.

End Runs.

(** Wednesday 10 January 2024, 14:30:05. *)
Definition wednesday : datetime := mkdatetime 2024 1 10 14 30 5 0.

Definition no_files : files := mkfiles None None.

(** The ledger of the examples: one meeting ahead of the reference, one at
    its very minute, one a minute later. *)
Definition three_meetings : files :=
  mkfiles (Some [mkmeeting "review" "2024-01-11 09:00";
                 mkmeeting "standup" "2024-01-10 14:30";
                 mkmeeting "lunch" "2024-01-10 14:31"]) None.

(** A ledger with a stored time the fixed format refuses. *)
Definition damaged_ledger : files :=
  mkfiles (Some [mkmeeting "review" "2024-01-11 09:00"; mkmeeting "standup" "soon"]) None.

(** A language model with one answer. *)
Definition llm_says_hi (_ : list lc_message) : outcome string := Ret "hi".

(** ** Vocabulary of the further properties *)

(** A check of the integers [z], [z + 1], ... ([fuel] of them), run as a
    computation. *)
Fixpoint check_from (P : Z -> bool) (fuel : nat) (z : Z) : bool :=
  match fuel with
  | O => true
  | S f => if P z then check_from P f (z + 1)%Z else false
  end.

(** The last steps of [ord2ymd]: month and day of the day of index [n]
    (from 0) in a year that is a leap year or not. *)
Definition month_day (leapyear : bool) (n : Z) : Z * Z :=
  let m := Z.shiftr (n + 50) 5 in
  let preceding := (DAYS_BEFORE_MONTH m + (if (2 <? m) && leapyear then 1 else 0))%Z in
  if (n <? preceding)%Z
  then
    let m := (m - 1)%Z in
    let preceding :=
      (preceding - (DAYS_IN_MONTH m + (if (m =? 2) && leapyear then 1 else 0)))%Z in
    (m, (n - preceding + 1)%Z)
  else (m, (n - preceding + 1)%Z).

(** What [month_day] is checked for on each day of a year. *)
Definition month_day_ok (leapyear : bool) (n : Z) : bool :=
  let '(m, d) := month_day leapyear n in
  ((1 <=? m) && (m <=? 12) && (1 <=? d)
   && (d <=? DAYS_IN_MONTH m + (if (m =? 2) && leapyear then 1 else 0))
   && (DAYS_BEFORE_MONTH m + (if (2 <? m) && leapyear then 1 else 0) + d =? n + 1))%Z.

(** The line [show_meetings] writes for one meeting. *)
Definition meeting_line (m : meeting) : string :=
  "- " ++ title m ++ " at " ++ time m ++ String "010" "".

(** A text that is empty or starts with a character that is not white
    space. *)
Definition clean_start (s : string) : Prop :=
  match s with
  | EmptyString => True
  | String c _ => Text.isspace c = false
  end.

(** ** The terminal loop *)

(** What the process writes to the terminal, call by call. *)
Inductive output : Type :=
| PanelOut (text style : string)   (* console.print(Panel(text, style=style)) *)
| PrintOut (text end_ : string)    (* print(text, end=end_) *)
| PromptOut (text : string).       (* the prompt of input(text) *)

(** How a run of [main] ends. *)
Inductive session_end : Type :=
| Goodbye              (* the loop met "exit" or "quit" *)
| EndOfInput           (* [input] found no line left *)
| Failed (e : exn).    (* an exception left [main] *)

Definition newline : string := String "010" EmptyString.

(** [typing_effect(text)]: one [print] per character, then an empty
    [print()]; the pause between characters is not modelled. *)
Fixpoint typing_chars (text : string) : list output :=
  match text with
  | EmptyString => []
  | String c r => PrintOut (String c EmptyString) EmptyString :: typing_chars r
  end.

Definition typing_effect (text : string) : list output :=
  (typing_chars text ++ [PrintOut EmptyString newline])%list.

(** The characters the [print] calls of a transcript write. *)
Fixpoint printed (out : list output) : string :=
  match out with
  | [] => EmptyString
  | PrintOut text end_ :: rest => text ++ end_ ++ printed rest
  | _ :: rest => printed rest
  end.

(** [user_input.lower() in ["exit", "quit"]] *)
Definition is_exit (user_input : string) : bool :=
  existsb (String.eqb (Text.lower user_input)) ["exit"; "quit"].

Section Main.
(** The clock at start-up (index 0) and at each turn. *)
Variable clock : nat -> datetime.
Variable date_parser_parse : string -> outcome datetime.
Variable fuzzy_parse : string -> datetime -> outcome datetime.
Variable llm_invoke : list lc_message -> outcome string.

(** The [while True] loop of [main], over the lines the terminal still
    holds. *)
Fixpoint main_loop (turn : nat) (lines : list string) (fs : files)
  : list output * session_end * files :=
  match lines with
  | [] => ([PromptOut "You: "], EndOfInput, fs)
  | line :: rest =>
      let user_input := Text.strip line in
      if is_exit user_input
      then ([PromptOut "You: "; PanelOut "Goodbye! Have a nice day." "green"],
            Goodbye, fs)
      else
        match chat_with_ai (clock (S turn)) date_parser_parse fuzzy_parse llm_invoke
                user_input fs with
        | (Ret reply, fs') =>
            let '(out, e, fs'') := main_loop (S turn) rest fs' in
            ((PromptOut "You: " :: PrintOut "Assistant: " EmptyString
              :: typing_effect reply ++ PrintOut EmptyString newline :: out)%list,
             e, fs'')
        | (Raise e, fs') => ([PromptOut "You: "], Failed e, fs')
        end
  end.

Definition banner : list output :=
  [PanelOut "Office AI Assistant" "bold blue";
   PrintOut ("Type 'exit' to quit." ++ newline) newline].

Definition main (lines : list string) (fs : files)
  : list output * session_end * files :=
  match cleanup_old_meetings (clock 0) fs with
  | (Ret _, fs') =>
      let '(out, e, fs'') := main_loop 0 lines fs' in
      ((banner ++ out)%list, e, fs'')
  | (Raise e, fs') => (banner, Failed e, fs')
  end.

End Main.

(** A clock that stands still. *)
Definition wednesday_clock (_ : nat) : datetime := wednesday.

(** A fuzzy parser that reads its text as the year 999 and takes the other
    fields from the default, as [dateutil] does on "999". *)
Definition fuzzy_year_999 (_ : string) (d : datetime) : outcome datetime :=
  Ret (mkdatetime 999 (month d) (day d) (hour d) (minute d) (second d) (microsecond d)).

(** A fuzzy parser with one answer: noon of the default's day. *)
Definition fuzzy_noon (_ : string) (d : datetime) : outcome datetime :=
  Ret (mkdatetime (year d) (month d) (day d) 12 0 0 0).

(** * Properties *)

(** ** Text *)

Module TextFacts.
Import Text.

Lemma append_empty (s : string) : (s ++ "")%string = s.
Proof. induction s; simpl; congruence. Qed.

Lemma append_assoc (a b c : string) : ((a ++ b) ++ c)%string = (a ++ b ++ c)%string.
Proof. induction a; simpl; congruence. Qed.

Lemma contains_find (sub s : string) :
  contains sub s = false <-> find sub s = None.
Proof.
  induction s as [|c r IH]; cbn [contains find].
  - destruct (prefix sub ""); simpl; split; intro H; congruence.
  - destruct (prefix sub (String c r)); simpl.
    + split; intro H; congruence.
    + rewrite IH. destruct (find sub r); simpl; split; intro H; congruence.
Qed.

Lemma split_from_skip (sep : string) (s : string) :
  forall k cur, split_from sep k cur s = split_from sep 0 cur (drop k s).
Proof.
  induction s as [|c r IH]; intros k cur.
  - destruct k; reflexivity.
  - destruct k as [|k]; [reflexivity|]. cbn [split_from drop]. apply IH.
Qed.

Lemma split_from_none (sep : string) (s : string) :
  forall cur, find sep s = None -> split_from sep 0 cur s = [(cur ++ s)%string].
Proof.
  induction s as [|c r IH]; intros cur H.
  - cbn [split_from]. now rewrite append_empty.
  - cbn [split_from find] in *. destruct (prefix sep (String c r)); [discriminate|].
    destruct (find sep r); [discriminate|].
    rewrite IH by reflexivity. now rewrite append_assoc.
Qed.

Lemma split_from_some (sep : string) (n : nat) (s : string) :
  String.length sep = S n ->
  forall i cur, find sep s = Some i ->
    split_from sep 0 cur s
    = (cur ++ take i s)%string :: split_from sep 0 "" (drop (i + S n) s).
Proof.
  intros Hlen. induction s as [|c r IH]; intros i cur H.
  - cbn [find] in H. destruct sep; [discriminate|]. simpl in H. discriminate.
  - cbn [find] in H. cbn [split_from].
    destruct (prefix sep (String c r)) eqn:Hp.
    + injection H as <-. cbn [take]. rewrite Hlen, append_empty.
      cbn [plus drop]. rewrite split_from_skip.
      replace (S n - 1)%nat with n by lia. reflexivity.
    + destruct (find sep r) as [j|] eqn:Hf; [|discriminate].
      injection H as <-. rewrite (IH j) by reflexivity.
      cbn [take plus drop]. now rewrite append_assoc.
Qed.

Lemma split_none (sep s : string) : find sep s = None -> split sep s = [s].
Proof. intros H. unfold split. now rewrite split_from_none. Qed.

Lemma split_some (sep : string) (n : nat) (s : string) (i : nat) :
  String.length sep = S n -> find sep s = Some i ->
  split sep s = take i s :: split sep (drop (i + S n) s).
Proof. intros Hlen H. unfold split. now rewrite (split_from_some sep n s Hlen i ""). Qed.

Lemma split_head (sep : string) (n : nat) (s : string) :
  String.length sep = S n ->
  exists rest, split sep s = before_first sep s :: rest.
Proof.
  intros Hlen. unfold before_first. destruct (find sep s) as [j|] eqn:H.
  - rewrite (split_some sep n s j Hlen H). eauto.
  - rewrite split_none by assumption. eauto.
Qed.

End TextFacts.

(** ** The router *)

Module RouterFacts.
Import Text TextFacts.

Lemma records_round_trip (h : list message) : map to_record (map of_record h) = h.
Proof.
  induction h as [|[[|] c] h IH]; simpl; [reflexivity| |]; now rewrite IH.
Qed.

Lemma prefix_lower (sub s : string) :
  prefix sub s = true -> prefix (lower sub) (lower s) = true.
Proof.
  revert s. induction sub as [|c sub IH]; intros s H; [now destruct s|].
  destruct s as [|d s]; [discriminate|]. simpl in *.
  destruct (ascii_dec c d) as [->|Hne]; [|discriminate].
  destruct (ascii_dec (lower_char d) (lower_char d)); [|congruence]. now apply IH.
Qed.

Lemma contains_lower (sub s : string) :
  contains sub s = true -> contains (lower sub) (lower s) = true.
Proof.
  induction s as [|c r IH]; cbn [contains lower]; intros H.
  - apply orb_true_iff in H. destruct H as [H|H]; [|discriminate].
    apply prefix_lower in H. cbn [lower] in H. now rewrite H.
  - apply orb_true_iff in H. destruct H as [H|H].
    + apply prefix_lower in H. cbn [lower] in H. now rewrite H.
    + rewrite (IH H). apply orb_true_r.
Qed.

Lemma separator_length : String.length " at " = 4%nat.
Proof. reflexivity. Qed.


Lemma add_time_text_with_separator (u : string) (i : nat) :
  find " at " u = Some i ->
  add_time_text u = Ret (strip (before_first " at " (drop (i + 4) u))).
Proof.
  intros H. unfold add_time_text.
  rewrite (split_some " at " 3 u i separator_length H).
  destruct (split_head " at " 3 (drop (i + 4) u) separator_length) as [rest ->].
  reflexivity.
Qed.


(** The turn starts from what [load_json] finds in the history resource. *)
Lemma chat_with_ai_reads_history now dp fz llm (u : string) (fs : files) :
  chat_with_ai now dp fz llm u fs
  = bind
      (let messages := map of_record (history_of fs) in
       match classify u with
       | AddMeeting =>
           bind (try_except (add_branch now dp fz u) (ret reply_parse_failure))
                (fun r => ret (messages, r))
       | ShowMeetings => bind show_meetings (fun r => ret (messages, r))
       | DeleteMeeting =>
           bind (delete_meeting (strip (strip_keywords delete_keywords u)))
                (fun r => ret (messages, r))
       | RegularChat =>
           let messages1 := (messages ++ [HumanMessage u])%list in
           bind (lift (llm messages1))
                (fun r => ret ((messages1 ++ [AIMessage r])%list, r))
       end)
      (fun reply =>
         let '(messages', ai_reply) := reply in
         bind (save_json HISTORY_FILE (map to_record messages'))
              (fun _ => ret ai_reply)) fs.
Proof.
  unfold chat_with_ai, bind at 1, load_json, history_of. simpl.
  destruct (history_json fs); reflexivity.
Qed.

End RouterFacts.

Section RouterTheorems.
Import Text TextFacts RouterFacts.

Variable now : datetime.
Variable date_parser_parse : string -> outcome datetime.
Variable fuzzy_parse : string -> datetime -> outcome datetime.
Variable llm_invoke : list lc_message -> outcome string.

Local Abbreviation chat := (chat_with_ai now date_parser_parse fuzzy_parse llm_invoke).
Local Abbreviation interpret := (parse_natural_datetime now date_parser_parse fuzzy_parse).



(** C10.  A turn classified as add, show or delete completes and leaves in
    the history resource exactly the messages it held; a general-chat turn
    whose model call answers [r] appends the human turn and then the ai
    turn, and one whose model call fails writes nothing. *)
Theorem history_changes_only_in_general_chat :
  forall (u : string) (fs : files),
    (classify u <> RegularChat ->
       exists r, fst (chat u fs) = Ret r
                 /\ history_json (snd (chat u fs)) = Some (history_of fs))
    /\ (classify u = RegularChat ->
        let transcript := (map of_record (history_of fs) ++ [HumanMessage u])%list in
        (forall r, llm_invoke transcript = Ret r ->
           chat u fs
           = (Ret r, write HISTORY_FILE
                       (history_of fs ++ [mkmessage human u; mkmessage ai r])%list fs))
        /\ (forall e, llm_invoke transcript = Raise e -> chat u fs = (Raise e, fs))).
Proof.
  intros u fs. rewrite !chat_with_ai_reads_history.
  destruct (classify u) eqn:Hc; split; try congruence; intros _.
  - unfold bind, try_except, ret, save_json.
    destruct (add_branch now date_parser_parse fuzzy_parse u fs) as [[r|e] fs'];
      simpl; rewrite records_round_trip; eauto.
  - unfold show_meetings, bind, load_json, ret, save_json. simpl.
    destruct (meetings_json fs) as [[|m l]|]; simpl; rewrite records_round_trip; eauto.
  - unfold delete_meeting, bind, load_json, ret, save_json. simpl.
    destruct (meetings_json fs); simpl; rewrite records_round_trip; eauto.
  - split.
    + intros r Hr. unfold bind, lift, ret, save_json. rewrite Hr. simpl.
      rewrite !map_app, records_round_trip. simpl.
      now rewrite <- app_assoc.
    + intros e He. unfold bind, lift. now rewrite He.
Qed.

End RouterTheorems.

(** ** The fixed format *)

Module CalendarFacts.
Local Open Scope Z_scope.

(** A check over a range of integers, run as a computation. *)
Lemma forall_range (P : Z -> bool) (lo : Z) (n : nat) :
  forallb P (map (fun i => lo + Z.of_nat i) (seq 0 n)) = true ->
  forall z, lo <= z < lo + Z.of_nat n -> P z = true.
Proof.
  intros H z Hz. rewrite forallb_forall in H. apply H.
  apply in_map_iff. exists (Z.to_nat (z - lo)). split; [lia|].
  apply in_seq. lia.
Qed.

Lemma digit_val_digit (k : Z) : 0 <= k <= 9 -> digit_val (digit k) = Some k.
Proof.
  intros H.
  pose proof (forall_range
                (fun k => match digit_val (digit k) with
                          | Some k' => k' =? k
                          | None => false
                          end) 0 10 eq_refl k ltac:(lia)) as E.
  cbv beta in E. destruct (digit_val (digit k)); [|discriminate].
  apply Z.eqb_eq in E. now subst.
Qed.

Lemma isdigit_digit (k : Z) : 0 <= k <= 9 -> Text.isdigit (digit k) = true.
Proof.
  intros H.
  exact (forall_range (fun k => Text.isdigit (digit k)) 0 10 eq_refl k ltac:(lia)).
Qed.

Lemma isspace_digit (k : Z) : 0 <= k <= 9 -> Text.isspace (digit k) = false.
Proof.
  intros H.
  apply negb_true_iff.
  exact (forall_range (fun k => negb (Text.isspace (digit k))) 0 10 eq_refl k ltac:(lia)).
Qed.

Lemma quotient_digit (n a : Z) : 0 < a -> 0 <= n < 10 * a -> 0 <= n / a <= 9.
Proof.
  intros Ha Hn. split; [apply Z.div_pos; lia|].
  apply Z.lt_succ_r. apply Z.div_lt_upper_bound; lia.
Qed.

Lemma remainder_digit (n : Z) : 0 <= n mod 10 <= 9.
Proof. pose proof (Z.mod_pos_bound n 10). lia. Qed.

Lemma two_digits_chars (ok : Z -> Z -> bool) (a b : Z) (r : string) :
  0 <= a <= 9 -> 0 <= b <= 9 ->
  two_digits ok (String (digit a) (String (digit b) r))
  = if ok a b then Some (10 * a + b, r) else None.
Proof.
  intros Ha Hb. unfold two_digits.
  now rewrite (digit_val_digit a Ha), (digit_val_digit b Hb).
Qed.

Lemma two_digits_pad2 (ok : Z -> Z -> bool) (n : Z) (r : string) :
  0 <= n <= 99 -> ok (n / 10) (n mod 10) = true ->
  two_digits ok (pad2 n ++ r) = Some (n, r).
Proof.
  intros Hn Hok. unfold pad2. cbn [append].
  rewrite two_digits_chars, Hok.
  - f_equal. f_equal. symmetry. apply Z.div_mod. lia.
  - apply quotient_digit; lia.
  - apply remainder_digit.
Qed.

(** From the year 1000 on [%Y] writes four digits. *)
Lemma format_Y_four_digits (y : Z) :
  1000 <= y ->
  format_Y y
  = String (digit (y / 1000)) (String (digit (y / 100 mod 10))
      (String (digit (y / 10 mod 10)) (String (digit (y mod 10)) EmptyString))).
Proof.
  intros Hy. unfold format_Y.
  destruct (Z.ltb_spec y 10); [lia|].
  destruct (Z.ltb_spec y 100); [lia|].
  destruct (Z.ltb_spec y 1000); [lia|]. reflexivity.
Qed.

Lemma read_Y_format_Y (y : Z) (r : string) :
  1000 <= y <= 9999 -> read_Y (format_Y y ++ r) = Some (y, r).
Proof.
  intros Hy. rewrite format_Y_four_digits by lia. unfold read_Y. cbn [append].
  rewrite two_digits_chars
    by first [apply remainder_digit | apply quotient_digit; lia].
  rewrite two_digits_chars by apply remainder_digit.
  f_equal. f_equal. Z.div_mod_to_equations. lia.
Qed.

(** Below the year 1000 the four digits [%Y] is read with are not there. *)
Lemma read_Y_short_year (y : Z) (r : string) :
  0 <= y < 1000 -> read_Y (format_Y y ++ String "-" r) = None.
Proof.
  intros Hy. unfold format_Y, read_Y.
  destruct (Z.ltb_spec y 10).
  { cbn [append]. unfold two_digits at 1. rewrite digit_val_digit by lia.
    reflexivity. }
  destruct (Z.ltb_spec y 100).
  { unfold pad2. cbn [append].
    rewrite two_digits_chars
      by first [apply remainder_digit | apply quotient_digit; lia].
    unfold two_digits. destruct r; reflexivity. }
  destruct (Z.ltb_spec y 1000); [|lia].
  cbn [append].
  rewrite two_digits_chars
    by first [apply remainder_digit | apply quotient_digit; lia].
  unfold two_digits. rewrite digit_val_digit by apply remainder_digit.
  reflexivity.
Qed.

Lemma length_append (a b : string) :
  String.length (a ++ b) = (String.length a + String.length b)%nat.
Proof. induction a as [|c a IH]; cbn [append String.length plus]; [reflexivity | now rewrite IH]. Qed.

Lemma length_format_Y (y : Z) : (1 <= String.length (format_Y y) <= 4)%nat.
Proof.
  unfold format_Y, pad2.
  destruct (y <? 10); [cbn [String.length]; lia|].
  destruct (y <? 100); [cbn [String.length]; lia|].
  destruct (y <? 1000); cbn [String.length]; lia.
Qed.

(** [strftime] writes the year and twelve more characters. *)
Lemma length_strftime (dt : datetime) :
  String.length (strftime dt) = (String.length (format_Y (year dt)) + 12)%nat.
Proof.
  unfold strftime, strftime_date, pad2. rewrite !length_append.
  cbn [String.length]. lia.
Qed.

(** A number in the range of a field, written on two digits, is read back
    by the reader of the field. *)
Lemma orelse_two_digits (ok : Z -> Z -> bool) (q : reader Z) (lo hi n : Z) (r : string) :
  0 <= lo -> hi <= 99 ->
  forallb (fun z => ok (z / 10) (z mod 10))
          (map (fun i => lo + Z.of_nat i) (seq 0 (Z.to_nat (hi + 1 - lo)))) = true ->
  lo <= n <= hi ->
  orelse (two_digits ok) q (pad2 n ++ r) = Some (n, r).
Proof.
  intros Hlo Hhi Hall Hn. unfold orelse.
  rewrite two_digits_pad2; [reflexivity | lia |].
  exact (forall_range (fun z => ok (z / 10) (z mod 10)) lo (Z.to_nat (hi + 1 - lo))
                      Hall n ltac:(lia)).
Qed.

Lemma read_m_pad2 (m : Z) (r : string) : 1 <= m <= 12 -> read_m (pad2 m ++ r) = Some (m, r).
Proof. apply orelse_two_digits; [lia | lia | reflexivity]. Qed.

Lemma read_d_pad2 (d : Z) (r : string) : 1 <= d <= 31 -> read_d (pad2 d ++ r) = Some (d, r).
Proof. apply orelse_two_digits; [lia | lia | reflexivity]. Qed.

Lemma read_H_pad2 (h : Z) (r : string) : 0 <= h <= 23 -> read_H (pad2 h ++ r) = Some (h, r).
Proof. apply orelse_two_digits; [lia | lia | reflexivity]. Qed.

Lemma read_M_pad2 (mi : Z) (r : string) : 0 <= mi <= 59 -> read_M (pad2 mi ++ r) = Some (mi, r).
Proof. apply orelse_two_digits; [lia | lia | reflexivity]. Qed.

Lemma lstrip_pad2 (n : Z) (r : string) :
  0 <= n <= 99 -> Text.lstrip (pad2 n ++ r) = (pad2 n ++ r)%string.
Proof.
  intros Hn. unfold pad2. cbn [append Text.lstrip].
  rewrite isspace_digit; [reflexivity|]. apply quotient_digit; lia.
Qed.

Lemma days_in_month_le_31 (y m : Z) : days_in_month y m <= 31.
Proof.
  unfold days_in_month. destruct ((m =? 2) && is_leap y); [lia|].
  unfold DAYS_IN_MONTH.
  destruct m as [|p|p]; try lia.
  do 4 (destruct p as [p|p|]; try lia).
Qed.

Lemma valid_in_range (dt : datetime) : valid_datetime dt = true -> in_range dt.
Proof.
  unfold valid_datetime. intros H.
  repeat (apply andb_true_iff in H; destruct H as [H ?]).
  repeat match goal with
         | E : (_ <=? _) = true |- _ => apply Z.leb_le in E
         end.
  apply Z.leb_le in H. constructor; lia.
Qed.

Lemma to_minute_valid (dt : datetime) :
  valid_datetime dt = true -> valid_datetime (to_minute dt) = true.
Proof.
  unfold valid_datetime, to_minute. cbn [year month day hour minute second microsecond].
  intros H.
  repeat (apply andb_true_iff in H; destruct H as [H ?]).
  repeat (apply andb_true_iff; split); try assumption; reflexivity.
Qed.

(** What [strftime] writes for a year of four digits, [strptime] reads
    back. *)
Lemma strptime_strftime (dt : datetime) :
  valid_datetime dt = true -> 1000 <= year dt ->
  strptime (strftime dt) = Ret (to_minute dt).
Proof.
  intros Hv H1000. destruct (valid_in_range dt Hv) as [Hy Hm Hd Hh Hmi].
  pose proof (days_in_month_le_31 (year dt) (month dt)) as H31.
  unfold strptime, strftime, strftime_date, read_fields, then_.
  rewrite !TextFacts.append_assoc.
  rewrite read_Y_format_Y by lia. cbn [append lit Ascii.eqb Bool.eqb].
  rewrite read_m_pad2 by lia. cbn [append lit Ascii.eqb Bool.eqb].
  rewrite read_d_pad2 by lia. cbn [append].
  unfold read_spaces. replace (Text.isspace " ") with true by reflexivity.
  rewrite lstrip_pad2 by lia.
  rewrite read_H_pad2 by lia. cbn [append lit Ascii.eqb Bool.eqb].
  rewrite <- (TextFacts.append_empty (pad2 (minute dt))).
  rewrite read_M_pad2 by lia.
  unfold new_datetime. fold (to_minute dt). now rewrite to_minute_valid.
Qed.

Lemma fixed_form_strftime (dt : datetime) :
  valid_datetime dt = true -> 1000 <= year dt -> fixed_form (strftime dt) = true.
Proof.
  intros Hv H1000. destruct (valid_in_range dt Hv) as [Hy Hm Hd Hh Hmi].
  pose proof (days_in_month_le_31 (year dt) (month dt)) as H31.
  unfold strftime, strftime_date. rewrite format_Y_four_digits by lia.
  unfold pad2. cbn [append fixed_form forallb].
  rewrite !isdigit_digit
    by first [apply remainder_digit | apply quotient_digit; lia].
  reflexivity.
Qed.

(** What [strftime] writes for a year below 1000, [strptime] refuses. *)
Lemma strptime_strftime_short_year (dt : datetime) :
  valid_datetime dt = true -> year dt < 1000 ->
  strptime (strftime dt) = Raise ValueError.
Proof.
  intros Hv H1000. destruct (valid_in_range dt Hv) as [Hy Hm Hd Hh Hmi].
  unfold strptime, strftime, strftime_date, read_fields, then_.
  rewrite !TextFacts.append_assoc. cbn [append].
  now rewrite read_Y_short_year by lia.
Qed.

Lemma fixed_form_length (s : string) : fixed_form s = true -> String.length s = 16%nat.
Proof.
  intros H.
  do 16 (destruct s as [|? s]; [discriminate H|]).
  destruct s; [reflexivity | discriminate H].
Qed.

Lemma fixed_form_strftime_short_year (dt : datetime) :
  year dt < 1000 -> fixed_form (strftime dt) = false.
Proof.
  intros H1000. destruct (fixed_form (strftime dt)) eqn:E; [|reflexivity].
  apply fixed_form_length in E. rewrite length_strftime in E.
  assert (String.length (format_Y (year dt)) <= 3)%nat; [|lia].
  unfold format_Y, pad2.
  destruct (year dt <? 10); [cbn [String.length]; lia|].
  destruct (year dt <? 100); [cbn [String.length]; lia|].
  destruct (Z.ltb_spec (year dt) 1000); [cbn [String.length]; lia | lia].
Qed.

Lemma lex_ltb_irrefl (l : list Z) : lex_ltb l l = false.
Proof.
  induction l as [|x l IH]; [reflexivity|]. simpl.
  now rewrite Z.ltb_irrefl, Z.eqb_refl, IH.
Qed.

End CalendarFacts.

(** ** The ledger *)

Module LedgerFacts.

Lemma filter_twice {A : Type} (p : A -> bool) (l : list A) :
  filter p (filter p l) = filter p l.
Proof.
  induction l as [|x l IH]; [reflexivity|]. simpl.
  destruct (p x) eqn:E; simpl; [rewrite E|]; now rewrite ?IH.
Qed.

Lemma filter_length_le {A : Type} (p : A -> bool) (l : list A) :
  (List.length (filter p l) <= List.length l)%nat.
Proof.
  induction l as [|x l IH]; simpl; [lia|]. destruct (p x); simpl; lia.
Qed.

Lemma load_meetings (fs : files) :
  load_json MEETINGS_FILE [] fs = (Ret (meetings_of fs), fs).
Proof. unfold load_json, meetings_of. simpl. now destruct (meetings_json fs). Qed.

Lemma meetings_of_write (l : list meeting) (fs : files) :
  meetings_of (write MEETINGS_FILE l fs) = l.
Proof. reflexivity. Qed.

Lemma delete_meeting_runs (t : string) (fs : files) :
  delete_meeting t fs
  = (let updated := filter (fun m => negb (same_title t m)) (meetings_of fs) in
     (Ret (if (List.length updated <? List.length (meetings_of fs))%nat
           then ("Deleted meeting '" ++ t ++ "'.")%string
           else "Meeting not found."%string),
      write MEETINGS_FILE updated fs)).
Proof. unfold delete_meeting, bind. now rewrite load_meetings. Qed.

(** When every stored time is readable no [strptime] raises, and the
    comprehension is a filter. *)
Lemma active_meetings_filter (now : datetime) (l : list meeting) :
  Forall readable l -> active_meetings now l = Ret (filter (still_ahead now) l).
Proof.
  induction 1 as [|m l [dt Hm] _ IH]; [reflexivity|].
  cbn [active_meetings filter]. unfold still_ahead at 1. rewrite Hm, IH. simpl.
  now destruct (datetime_ltb now dt).
Qed.

Lemma active_meetings_sublist (now : datetime) (l a : list meeting) :
  active_meetings now l = Ret a -> forall m, In m a -> In m l.
Proof.
  revert a. induction l as [|x l IH]; intros a H m Hin.
  - injection H as <-. destruct Hin.
  - cbn [active_meetings] in H. destruct (strptime (time x)) as [dt|]; [|discriminate].
    simpl in H. destruct (active_meetings now l) as [a'|]; [|discriminate].
    simpl in H. injection H as <-.
    destruct (datetime_ltb now dt).
    + destruct Hin as [->|Hin]; [now left | right; eauto].
    + right; eauto.
Qed.

Lemma cleanup_old_meetings_runs (now : datetime) (fs : files) :
  cleanup_old_meetings now fs
  = match active_meetings now (meetings_of fs) with
    | Ret active => (Ret tt, write MEETINGS_FILE active fs)
    | Raise e => (Raise e, fs)
    end.
Proof.
  unfold cleanup_old_meetings, bind. rewrite load_meetings. unfold lift.
  now destruct (active_meetings now (meetings_of fs)).
Qed.

End LedgerFacts.

Section LedgerTheorems.
Import LedgerFacts.

(** C5.  [delete_meeting t] rewrites the list without any entry whose
    lower-cased title equals the lower-cased [t], keeping the others in
    order; it answers "Meeting not found." exactly when the filtered list is
    as long as the list it read; run again at once, it answers "Meeting not
    found." and leaves the list as it is. *)
Theorem delete_meeting_removes_every_match :
  forall (t : string) (fs : files),
    let meetings := meetings_of fs in
    let updated := filter (fun m => negb (same_title t m)) meetings in
    let fs' := snd (delete_meeting t fs) in
    fs' = write MEETINGS_FILE updated fs
    /\ (forall m, In m updated
                  <-> In m meetings /\ Text.lower (title m) <> Text.lower t)
    /\ (exists r, fst (delete_meeting t fs) = Ret r
                  /\ (r = "Meeting not found."
                      <-> List.length updated = List.length meetings))
    /\ delete_meeting t fs' = (Ret "Meeting not found.", fs').
Proof.
  intros t fs meetings updated fs'.
  assert (Hfs : fs' = write MEETINGS_FILE updated fs).
  { unfold fs'. now rewrite delete_meeting_runs. }
  split; [exact Hfs|]. split; [|split].
  - intros m. unfold updated. rewrite filter_In. unfold same_title.
    rewrite negb_true_iff. now rewrite String.eqb_neq.
  - rewrite delete_meeting_runs. cbn [fst]. fold meetings. fold updated.
    pose proof (filter_length_le (fun m => negb (same_title t m)) meetings) as Hle.
    fold updated in Hle.
    destruct (List.length updated <? List.length meetings)%nat eqn:E.
    + apply Nat.ltb_lt in E. eexists; split; [reflexivity|].
      split; [discriminate | lia].
    + apply Nat.ltb_ge in E. eexists; split; [reflexivity|].
      split; [lia | reflexivity].
  - rewrite Hfs, delete_meeting_runs, meetings_of_write. cbv zeta.
    unfold updated. rewrite filter_twice, Nat.ltb_irrefl. f_equal.
Qed.

(** C4 (amended).  On a ledger whose stored times the fixed format reads,
    [cleanup_old_meetings] rewrites the list with exactly the meetings whose
    parsed time is strictly after [now], in their order; a meeting whose
    parsed time equals [now] is dropped; run twice with the same [now] it
    leaves what one run leaves. *)
Theorem cleanup_old_meetings_keeps_later :
  forall (now : datetime) (fs : files),
    Forall readable (meetings_of fs) ->
    let kept := filter (still_ahead now) (meetings_of fs) in
    cleanup_old_meetings now fs = (Ret tt, write MEETINGS_FILE kept fs)
    /\ (forall m, In m kept
                  <-> In m (meetings_of fs)
                      /\ exists dt, strptime (time m) = Ret dt
                                    /\ datetime_ltb now dt = true)
    /\ (forall m dt, strptime (time m) = Ret dt -> fields dt = fields now ->
                     ~ In m kept)
    /\ cleanup_old_meetings now (write MEETINGS_FILE kept fs)
       = (Ret tt, write MEETINGS_FILE kept fs).
Proof.
  intros now fs Hr kept.
  assert (Hin : forall m, In m kept
                  <-> In m (meetings_of fs)
                      /\ exists dt, strptime (time m) = Ret dt
                                    /\ datetime_ltb now dt = true).
  { intros m. unfold kept. rewrite filter_In. unfold still_ahead.
    split; intros [H1 H2]; (split; [assumption|]).
    - destruct (strptime (time m)) as [dt|]; [eauto | discriminate].
    - destruct H2 as [dt [-> H2]]. exact H2. }
  split; [|split; [exact Hin|split]].
  - rewrite cleanup_old_meetings_runs. now rewrite active_meetings_filter.
  - intros m dt Hm Hf Hk. apply Hin in Hk. destruct Hk as [_ [dt' [Hm' Hlt]]].
    rewrite Hm in Hm'. injection Hm' as <-.
    unfold datetime_ltb in Hlt. rewrite Hf in Hlt.
    now rewrite CalendarFacts.lex_ltb_irrefl in Hlt.
  - rewrite cleanup_old_meetings_runs, meetings_of_write.
    rewrite active_meetings_filter.
    + unfold kept. now rewrite filter_twice.
    + apply Forall_forall. intros m Hm. rewrite Forall_forall in Hr.
      apply Hr. unfold kept in Hm. apply filter_In in Hm. tauto.
Qed.

End LedgerTheorems.

(** ** The clock-time token *)

Module TokenFacts.
Import TimeToken TextFacts.

Lemma prefix_split (p s : string) :
  prefix p s = true -> s = (p ++ Text.drop (String.length p) s)%string.
Proof.
  revert s. induction p as [|c p IH]; intros s H; [reflexivity|].
  destruct s as [|d s]; [discriminate|]. simpl in H.
  destruct (ascii_dec c d) as [->|]; [|discriminate].
  simpl. f_equal. now apply IH.
Qed.

Lemma digits12_sound (s h r : string) :
  digits12 s = Some (h, r) -> s = (h ++ r)%string /\ hour_part h.
Proof.
  unfold digits12. destruct s as [|c1 r1]; [discriminate|].
  destruct (Text.isdigit c1) eqn:E1; [|discriminate].
  destruct r1 as [|c2 r2].
  - intros [= <- <-]. split; [reflexivity | now constructor].
  - destruct (Text.isdigit c2) eqn:E2; intros [= <- <-];
      (split; [reflexivity | now constructor]).
Qed.

Lemma digits12_none (s : string) :
  digits12 s = None ->
  match s with
  | EmptyString => True
  | String c _ => Text.isdigit c = false
  end.
Proof.
  unfold digits12. destruct s as [|c1 r1]; [trivial|].
  destruct (Text.isdigit c1); [|reflexivity].
  destruct r1 as [|c2 r2]; [discriminate|]. destruct (Text.isdigit c2); discriminate.
Qed.

Lemma opt_minutes_sound (s m r : string) :
  opt_minutes s = (m, r) -> s = (m ++ r)%string /\ minutes_part m.
Proof.
  unfold opt_minutes.
  destruct s as [|c [|d1 [|d2 r']]];
    try (intros [= <- <-]; split; [reflexivity | constructor]).
  destruct (Ascii.eqb c ":") eqn:Ec; simpl;
    [|intros [= <- <-]; split; [reflexivity | constructor]].
  destruct (Text.isdigit d1) eqn:E1; simpl;
    [|intros [= <- <-]; split; [reflexivity | constructor]].
  destruct (Text.isdigit d2) eqn:E2; simpl;
    intros [= <- <-]; (split; [reflexivity|]); [|constructor].
  apply Ascii.eqb_eq in Ec. subst c. now constructor.
Qed.

Lemma opt_space_sound (s w r : string) :
  opt_space s = (w, r) -> s = (w ++ r)%string /\ space_part w.
Proof.
  unfold opt_space.
  destruct s as [|c r']; [intros [= <- <-]; split; [reflexivity|constructor]|].
  destruct (Text.isspace c) eqn:E; intros [= <- <-];
    (split; [reflexivity|]); now constructor.
Qed.

Lemma opt_ampm_sound (s a r : string) :
  opt_ampm s = (a, r) -> s = (a ++ r)%string /\ ampm_part a.
Proof.
  unfold opt_ampm. destruct (prefix "am" s) eqn:Ea.
  - intros [= <- <-]. split; [exact (prefix_split "am" s Ea) | constructor].
  - destruct (prefix "pm" s) eqn:Ep; intros [= <- <-].
    + split; [exact (prefix_split "pm" s Ep) | constructor].
    + split; [reflexivity | constructor].
Qed.

Lemma match_here_sound (s g r : string) :
  match_here s = Some (g, r) -> s = (g ++ r)%string /\ clock_token g.
Proof.
  unfold match_here. destruct (digits12 s) as [[h r1]|] eqn:Eh; [|discriminate].
  destruct (opt_minutes r1) as [m r2] eqn:Em.
  destruct (opt_space r2) as [w r3] eqn:Ew.
  destruct (opt_ampm r3) as [a r4] eqn:Ea.
  intros [= <- <-].
  apply digits12_sound in Eh. destruct Eh as [-> Hh].
  apply opt_minutes_sound in Em. destruct Em as [-> Hm].
  apply opt_space_sound in Ew. destruct Ew as [-> Hw].
  apply opt_ampm_sound in Ea. destruct Ea as [-> Ha].
  split; [now rewrite !append_assoc | now constructor].
Qed.

Lemma match_here_none (s : string) :
  match_here s = None ->
  match s with
  | EmptyString => True
  | String c _ => Text.isdigit c = false
  end.
Proof.
  unfold match_here. destruct (digits12 s) as [[h r1]|] eqn:Eh.
  - destruct (opt_minutes r1) as [m r2]. destruct (opt_space r2) as [w r3].
    destruct (opt_ampm r3) as [a r4]. discriminate.
  - intros _. now apply digits12_none.
Qed.

(** [search] returns the first match: nothing before it has a digit. *)
Lemma search_first_match (text g : string) :
  search text = Some g ->
  exists pre post,
    text = (pre ++ g ++ post)%string /\ no_digit pre = true /\ clock_token g.
Proof.
  induction text as [|c r IH]; cbn [search].
  - destruct (match_here "") as [[g' r']|] eqn:E; [|discriminate].
    discriminate E.
  - destruct (match_here (String c r)) as [[g' r']|] eqn:E.
    + intros [= ->]. apply match_here_sound in E. destruct E as [E Hg].
      exists EmptyString, r'. now rewrite E.
    + intros H. destruct (IH H) as [pre [post [-> [Hpre Hg]]]].
      exists (String c pre), post. apply match_here_none in E.
      simpl. now rewrite E, Hpre.
Qed.

Lemma search_none (text : string) : search text = None <-> no_digit text = true.
Proof.
  induction text as [|c r IH]; cbn [search no_digit].
  - split; reflexivity.
  - destruct (match_here (String c r)) as [[g' r']|] eqn:E.
    + split; [discriminate|]. intros H. exfalso.
      unfold match_here, digits12 in E.
      destruct (Text.isdigit c); [discriminate H|]. discriminate E.
    + apply match_here_none in E. rewrite E. simpl. exact IH.
Qed.

End TokenFacts.

(** ** The interpreter *)

Module InterpreterFacts.
Local Open Scope Z_scope.

(** The loop stops at the first weekday whose phrase the text contains. *)
Lemma next_weekday_first now dp (text : string) (days : list string) :
  forall (i0 : Z) (i : nat) (day : string),
    nth_error days i = Some day ->
    Text.contains ("next " ++ day) text = true ->
    (forall j dj, (j < i)%nat -> nth_error days j = Some dj ->
                  Text.contains ("next " ++ dj) text = false) ->
    next_weekday now dp i0 days text
    = Some (date_with_clock now dp (days_ahead now (i0 + Z.of_nat i)) text).
Proof.
  induction days as [|d days IH]; intros i0 i day Hn Hc Hfirst.
  - destruct i; discriminate.
  - cbn [next_weekday]. destruct i as [|i].
    + injection Hn as ->. rewrite Hc. now rewrite Z.add_0_r.
    + rewrite (Hfirst 0%nat d) by (reflexivity || lia).
      rewrite (IH (i0 + 1) i day Hn Hc).
      * do 3 f_equal. lia.
      * intros j dj Hj Hd. apply (Hfirst (S j) dj); [lia | exact Hd].
Qed.

Lemma next_weekday_some now dp (text : string) (days : list string) :
  forall i0 r, next_weekday now dp i0 days text = Some r ->
               exists k, r = date_with_clock now dp k text.
Proof.
  induction days as [|d days IH]; intros i0 r H; [discriminate|].
  cbn [next_weekday] in H. destruct (Text.contains ("next " ++ d) text).
  - injection H as <-. eauto.
  - eauto.
Qed.

Lemma date_with_clock_returns now dp (k : Z) (text : string) (x : option string) :
  date_with_clock now dp k text = Ret x ->
  exists base dt,
    plus_days now k = Ret base
    /\ dp (strftime_date base ++ " " ++ token_or_default text)%string = Ret dt
    /\ x = Some (strftime dt).
Proof.
  unfold date_with_clock, obind, token_or_default.
  destruct (plus_days now k) as [base|]; [|discriminate].
  destruct (dp _) as [dt|] eqn:E; [|discriminate].
  intros [= <-]. eauto.
Qed.

(** Whatever the interpreter returns was written by [strftime]. *)
Lemma parse_natural_datetime_returns now dp fz (text0 t : string) :
  parse_natural_datetime now dp fz text0 = Ret (Some t) ->
  exists dt, t = strftime dt
             /\ ((exists s, dp s = Ret dt) \/ (exists s d, fz s d = Ret dt)).
Proof.
  unfold parse_natural_datetime.
  destruct (Text.contains "tomorrow" _).
  - intros H. apply date_with_clock_returns in H.
    destruct H as [base [dt [_ [Hdp [= ->]]]]].
    exists dt. split; [reflexivity | left; eauto].
  - destruct (next_weekday _ _ _ _ _) as [r|] eqn:E.
    + apply next_weekday_some in E. destruct E as [k ->].
      intros H. apply date_with_clock_returns in H.
      destruct H as [base [dt [_ [Hdp [= ->]]]]].
      exists dt. split; [reflexivity | left; eauto].
    + destruct (fz _ now) as [dt|] eqn:Ef; [|discriminate].
      intros [= <-]. exists dt. split; [reflexivity | right; eauto].
Qed.

Lemma dateutil_parse_valid (s : string) (dt : datetime) :
  Dateutil.parse s = Ret dt -> valid_datetime dt = true.
Proof.
  unfold Dateutil.parse.
  destruct (Dateutil.read_date s) as [[[[y m] d] tok]|]; [|discriminate].
  destruct (TimeToken.digits12 tok) as [[hh r1]|]; [|discriminate].
  destruct (TimeToken.opt_minutes r1) as [mm r2].
  destruct (TimeToken.opt_space r2) as [w r3].
  destruct (TimeToken.opt_ampm r3) as [ap r4].
  destruct r4; [|discriminate].
  destruct (Dateutil.clock hh mm ap) as [[h mi]|]; [|discriminate].
  unfold new_datetime.
  destruct (valid_datetime (mkdatetime y m d h mi 0 0)) eqn:E; [|discriminate].
  now intros [= <-].
Qed.

Lemma fuzzy_rejects_valid (s : string) (d dt : datetime) :
  Dateutil.fuzzy_rejects s d = Ret dt -> valid_datetime dt = true.
Proof. discriminate. Qed.

End InterpreterFacts.

Section InterpreterTheorems.
Import InterpreterFacts TokenFacts.
Local Open Scope Z_scope.

Variable now : datetime.
Variable date_parser_parse : string -> outcome datetime.
Variable fuzzy_parse : string -> datetime -> outcome datetime.

Local Abbreviation interpret := (parse_natural_datetime now date_parser_parse fuzzy_parse).


(** C2 (amended).  For a text whose trimmed lower-case form does not contain
    "tomorrow" and contains "next " followed by the weekday of index [i],
    no weekday of smaller index being so contained: with
    [d = (i - weekday now + 7) mod 7] and [ahead] equal to 7 when [d] is 0
    and to [d] otherwise, [ahead] lies between 1 and 7, and when the strict
    parser accepts the date [ahead] days after the reference followed by the
    token (or "9am"), the result is its answer in the fixed format.  With
    the reference Wednesday 2024-01-10, "next wednesday" gives
    "2024-01-17 09:00" and "next monday" gives "2024-01-15 09:00". *)
Theorem next_weekday_uses_days_ahead :
  (forall (text0 : string) (i : nat) (day : string),
     let text := Text.strip (Text.lower text0) in
     Text.contains "tomorrow" text = false ->
     nth_error days_map i = Some day ->
     Text.contains ("next " ++ day) text = true ->
     (forall j dj, (j < i)%nat -> nth_error days_map j = Some dj ->
                   Text.contains ("next " ++ dj) text = false) ->
     let d := (Z.of_nat i - weekday now + 7) mod 7 in
     let ahead := if d =? 0 then 7 else d in
     1 <= ahead <= 7
     /\ forall base dt,
          plus_days now ahead = Ret base ->
          date_parser_parse (strftime_date base ++ " " ++ token_or_default text)%string
          = Ret dt ->
          interpret text0 = Ret (Some (strftime dt)))
  /\ parse_natural_datetime wednesday Dateutil.parse Dateutil.fuzzy_rejects "next wednesday"
     = Ret (Some "2024-01-17 09:00"%string)
  /\ parse_natural_datetime wednesday Dateutil.parse Dateutil.fuzzy_rejects "next monday"
     = Ret (Some "2024-01-15 09:00"%string).
Proof.
  split; [|split; reflexivity].
  intros text0 i day text Ht Hday Hc Hfirst d ahead. split.
  - unfold ahead. pose proof (Z.mod_pos_bound (Z.of_nat i - weekday now + 7) 7) as Hd.
    fold d in Hd. destruct (Z.eqb_spec d 0); lia.
  - intros base dt Hb Hdt.
    unfold parse_natural_datetime. fold text. rewrite Ht.
    rewrite (next_weekday_first now date_parser_parse text days_map 0 i day Hday Hc Hfirst).
    unfold date_with_clock, days_ahead. rewrite Z.add_0_l.
    fold d. fold ahead. rewrite Hb. cbn [obind].
    fold (token_or_default text). now rewrite Hdt.
Qed.

End InterpreterTheorems.

(** C1 (the code at failing inputs).  With the reference Wednesday
    2024-01-10, "tomorrow 25:00" and "next friday 25:00" make the strict
    parser fail in a keyword branch, and the failure leaves
    [parse_natural_datetime] as an exception; the same clock time without a
    keyword reaches the fallback, whose failure is caught and returned as
    [None]. *)
Theorem parse_natural_datetime_raises_in_keyword_branches :
  parse_natural_datetime wednesday Dateutil.parse Dateutil.fuzzy_rejects "tomorrow 25:00"
  = Raise ParserError
  /\ parse_natural_datetime wednesday Dateutil.parse Dateutil.fuzzy_rejects
       "next friday 25:00"
     = Raise ParserError
  /\ parse_natural_datetime wednesday Dateutil.parse Dateutil.fuzzy_rejects "25:00 sharp"
     = Ret None.
Proof. repeat split; reflexivity. Qed.

(** C7 (the code at a failing input).  "Create meeting budget at tomorrow
    9am" is an add-intent utterance; the keyword "create meeting" is removed
    from the title only where it is written in lower case, so the meeting is
    stored under the title "Create meeting budget". *)
Theorem add_title_keeps_mixed_case_keyword :
  classify "Create meeting budget at tomorrow 9am" = AddMeeting
  /\ add_title "Create meeting budget at tomorrow 9am" = Ret "Create meeting budget"
  /\ add_title "create meeting budget at tomorrow 9am" = Ret "budget"
  /\ meetings_of
       (snd (chat_with_ai wednesday Dateutil.parse Dateutil.fuzzy_rejects llm_unreachable
               "Create meeting budget at tomorrow 9am" no_files))
     = [mkmeeting "Create meeting budget" "2024-01-11 09:00"].
Proof. repeat split; reflexivity. Qed.

(** ** The stored times *)

Module InvariantFacts.
Import LedgerFacts InterpreterFacts RouterFacts.

Lemma time_ok_strftime (dt : datetime) (t : string) :
  valid_datetime dt = true -> (1000 <= year dt)%Z -> time_ok (mkmeeting t (strftime dt)).
Proof.
  intros Hv Hy. split; cbn [time].
  - now apply CalendarFacts.fixed_form_strftime.
  - exists (to_minute dt). now apply CalendarFacts.strptime_strftime.
Qed.

Lemma written_strftime (dt : datetime) (t : string) :
  valid_datetime dt = true -> written (mkmeeting t (strftime dt)).
Proof. intros Hv. now exists dt. Qed.

Lemma truthy_some (x : option string) (t : string) : truthy x = Some t -> x = Some t.
Proof. destruct x as [[|c s]|]; simpl; congruence. Qed.

(** A property of the stored meetings, one by one, is kept by every
    operation when the meetings the add branch stores have it. *)
Section Kept.
Variable P : meeting -> Prop.

Local Abbreviation all_have fs := (Forall P (meetings_of fs)).

Lemma kept_same_meetings (fs fs' : files) :
  meetings_json fs' = meetings_json fs -> all_have fs -> all_have fs'.
Proof. unfold meetings_of. now intros ->. Qed.

Lemma kept_filter (p : meeting -> bool) (fs : files) :
  all_have fs -> all_have (write MEETINGS_FILE (filter p (meetings_of fs)) fs).
Proof.
  rewrite meetings_of_write. intros H.
  apply Forall_forall. intros m Hm. apply filter_In in Hm.
  rewrite Forall_forall in H. now apply H.
Qed.

Lemma kept_add_meeting (t0 t : string) (fs : files) :
  all_have fs -> P (mkmeeting t0 t) -> all_have (snd (add_meeting t0 t fs)).
Proof.
  intros H Hm. unfold add_meeting, bind. rewrite load_meetings.
  unfold save_json, ret. cbn [snd].
  rewrite meetings_of_write. apply Forall_app. split; [exact H | now constructor].
Qed.

Lemma kept_cleanup_old_meetings (now : datetime) (fs : files) :
  all_have fs -> all_have (snd (cleanup_old_meetings now fs)).
Proof.
  intros H. rewrite cleanup_old_meetings_runs.
  destruct (active_meetings now (meetings_of fs)) as [a|e] eqn:E; cbn [snd]; [|exact H].
  rewrite meetings_of_write.
  apply Forall_forall. intros m Hm.
  rewrite Forall_forall in H. apply H.
  exact (active_meetings_sublist now _ _ E m Hm).
Qed.

Section Preservation.
Variable date_parser_parse : string -> outcome datetime.
Variable fuzzy_parse : string -> datetime -> outcome datetime.
Variable llm_invoke : list lc_message -> outcome string.
Hypothesis strict_answer :
  forall t0 s dt, date_parser_parse s = Ret dt -> P (mkmeeting t0 (strftime dt)).
Hypothesis fuzzy_answer :
  forall t0 s d dt, fuzzy_parse s d = Ret dt -> P (mkmeeting t0 (strftime dt)).

Lemma kept_add_branch (now : datetime) (u : string) (fs : files) :
  all_have fs ->
  all_have (snd (add_branch now date_parser_parse fuzzy_parse u fs)).
Proof.
  intros H. unfold add_branch.
  destruct (Text.contains " at " (Text.lower u)); [|exact H].
  unfold bind, lift.
  destruct (add_title u) as [t0|]; [|exact H].
  destruct (add_time_text u) as [tt|]; [|exact H].
  destruct (parse_natural_datetime now date_parser_parse fuzzy_parse tt)
    as [parsed|] eqn:Ep; [|exact H].
  destruct (truthy parsed) as [t|] eqn:Et; [|exact H].
  apply truthy_some in Et. subst parsed.
  apply parse_natural_datetime_returns in Ep.
  destruct Ep as [dt [-> Hsrc]].
  apply kept_add_meeting; [exact H|].
  destruct Hsrc as [[s Hs]|[s [d Hs]]]; eauto.
Qed.

Lemma kept_chat_with_ai (now : datetime) (u : string) (fs : files) :
  all_have fs ->
  all_have (snd (chat_with_ai now date_parser_parse fuzzy_parse llm_invoke u fs)).
Proof.
  intros H. rewrite chat_with_ai_reads_history.
  destruct (classify u).
  - pose proof (kept_add_branch now u fs H) as Hb.
    unfold bind, try_except, ret, save_json.
    destruct (add_branch now date_parser_parse fuzzy_parse u fs) as [[r|e] fs1];
      cbn [snd] in *; exact (kept_same_meetings fs1 _ eq_refl Hb).
  - unfold show_meetings, bind, ret, save_json. rewrite load_meetings.
    destruct (meetings_of fs) eqn:E; cbn [snd]; rewrite <- E in H;
      exact (kept_same_meetings fs _ eq_refl H).
  - unfold bind. rewrite delete_meeting_runs. unfold ret, save_json. cbn [snd].
    refine (kept_same_meetings _ _ eq_refl (kept_filter _ fs H)).
  - unfold bind, lift, ret, save_json.
    destruct (llm_invoke _); cbn [snd]; [|exact H].
    exact (kept_same_meetings fs _ eq_refl H).
Qed.

Lemma kept_step (fs : files) (op : operation) :
  all_have fs -> all_have (step date_parser_parse fuzzy_parse llm_invoke fs op).
Proof.
  intros H. destruct op as [now u|now]; cbn [step].
  - now apply kept_chat_with_ai.
  - now apply kept_cleanup_old_meetings.
Qed.

Lemma kept_run (ops : list operation) (fs : files) :
  all_have fs -> all_have (run date_parser_parse fuzzy_parse llm_invoke ops fs).
Proof.
  unfold run. revert fs.
  induction ops as [|op ops IH]; intros fs H; [exact H|].
  cbn [fold_left]. apply IH. now apply kept_step.
Qed.

End Preservation.

End Kept.

End InvariantFacts.

(** C9 (amended).  When the two parsers only return well-formed datetimes,
    every run of turns and prunings, from a ledger whose stored times
    [strftime] wrote with the fixed format from well-formed datetimes (the
    empty ledger is one), gives such a ledger; and a stored time written from
    a year of four digits has the lexical form "YYYY-MM-DD HH:MM" and is read
    back by the fixed format as the datetime it was written from, cut to the
    minute.  Nothing is said of the titles. *)
Theorem ledger_times_stay_in_fixed_form :
  forall (date_parser_parse : string -> outcome datetime)
         (fuzzy_parse : string -> datetime -> outcome datetime)
         (llm_invoke : list lc_message -> outcome string),
    (forall s dt, date_parser_parse s = Ret dt -> valid_datetime dt = true) ->
    (forall s d dt, fuzzy_parse s d = Ret dt -> valid_datetime dt = true) ->
    forall (ops : list operation) (fs : files),
      Forall written (meetings_of fs) ->
      forall m, In m (meetings_of (run date_parser_parse fuzzy_parse llm_invoke ops fs)) ->
        exists dt,
          valid_datetime dt = true
          /\ time m = strftime dt
          /\ ((1000 <= year dt)%Z ->
              fixed_form (time m) = true /\ strptime (time m) = Ret (to_minute dt)).
Proof.
  intros dp fz llm Hdp Hfz ops fs H m Hm.
  assert (Hw : Forall written (meetings_of (run dp fz llm ops fs))).
  { apply InvariantFacts.kept_run; [| |exact H].
    - intros t0 s dt Hs. apply InvariantFacts.written_strftime. eauto.
    - intros t0 s d dt Hs. apply InvariantFacts.written_strftime. eauto. }
  rewrite Forall_forall in Hw. destruct (Hw m Hm) as [dt [Hv Ht]].
  exists dt. split; [exact Hv|]. split; [exact Ht|]. intros Hy. rewrite Ht. split.
  - now apply CalendarFacts.fixed_form_strftime.
  - now apply CalendarFacts.strptime_strftime.
Qed.

(** ** The claims at concrete inputs *)

(** C2: a text with "next monday" that also holds "tomorrow" is answered by
    the "tomorrow" rule, one day ahead, and not five. *)
Lemma next_weekday_yields_to_tomorrow :
  Text.contains "next monday" "next monday tomorrow" = true
  /\ spec_next_weekday wednesday Dateutil.parse 0 "next monday tomorrow"
     = Ret (Some "2024-01-15 09:00")
  /\ parse_natural_datetime wednesday Dateutil.parse Dateutil.fuzzy_rejects
       "next monday tomorrow"
     = Ret (Some "2024-01-11 09:00")
  /\ parse_natural_datetime wednesday Dateutil.parse Dateutil.fuzzy_rejects
       "next monday tomorrow"
     <> spec_next_weekday wednesday Dateutil.parse 0 "next monday tomorrow".
Proof. repeat split; try reflexivity. discriminate. Qed.

Lemma next_weekday_uses_days_ahead_witness :
  Text.contains "tomorrow" (Text.strip (Text.lower "Next Friday 3pm")) = false
  /\ nth_error days_map 4 = Some "friday"
  /\ plus_days wednesday 2 = Ret (mkdatetime 2024 1 12 14 30 5 0)
  /\ parse_natural_datetime wednesday Dateutil.parse Dateutil.fuzzy_rejects "Next Friday 3pm"
     = Ret (Some "2024-01-12 15:00").
Proof.
  split; [reflexivity|]. split; [reflexivity|]. split; [reflexivity|].
  refine (proj2 (proj1 (next_weekday_uses_days_ahead wednesday Dateutil.parse
                          Dateutil.fuzzy_rejects)
                   "Next Friday 3pm" 4%nat "friday" eq_refl eq_refl eq_refl _)
            (mkdatetime 2024 1 12 14 30 5 0) (mkdatetime 2024 1 12 15 0 0 0)
            eq_refl eq_refl).
  intros j dj Hj.
  destruct j as [|[|[|[|j]]]]; [| | | |lia]; intros [= <-]; reflexivity.
Defined.



(** C4: on a stored list that holds a time the fixed format refuses, the
    meeting after the reference is not written back: the call raises
    [ValueError] and the store stays as it was. *)
Lemma cleanup_old_meetings_raises_on_damaged_ledger :
  meetings_of damaged_ledger
  = [mkmeeting "review" "2024-01-11 09:00"; mkmeeting "standup" "soon"]
  /\ strptime "2024-01-11 09:00" = Ret (mkdatetime 2024 1 11 9 0 0 0)
  /\ datetime_ltb wednesday (mkdatetime 2024 1 11 9 0 0 0) = true
  /\ strptime "soon" = Raise ValueError
  /\ cleanup_old_meetings wednesday damaged_ledger = (Raise ValueError, damaged_ledger)
  /\ cleanup_old_meetings wednesday damaged_ledger
     <> (Ret tt, write MEETINGS_FILE [mkmeeting "review" "2024-01-11 09:00"] damaged_ledger).
Proof. repeat split; try reflexivity. discriminate. Qed.

Lemma cleanup_old_meetings_keeps_later_witness :
  Forall readable (meetings_of three_meetings)
  /\ cleanup_old_meetings wednesday three_meetings
     = (Ret tt,
        mkfiles (Some [mkmeeting "review" "2024-01-11 09:00";
                       mkmeeting "lunch" "2024-01-10 14:31"]) None).
Proof.
  assert (H : Forall readable (meetings_of three_meetings)).
  { repeat constructor; eexists; reflexivity. }
  split; [exact H|].
  exact (proj1 (cleanup_old_meetings_keeps_later wednesday three_meetings H)).
Defined.





(** C9: the add branch stores a meeting whose title is empty. *)
Lemma add_stores_an_empty_title :
  classify "schedule at tomorrow 9am" = AddMeeting
  /\ meetings_of
       (snd (chat_with_ai wednesday Dateutil.parse Dateutil.fuzzy_rejects llm_unreachable
               "schedule at tomorrow 9am" no_files))
     = [mkmeeting "" "2024-01-11 09:00"].
Proof. split; reflexivity. Qed.

Lemma ledger_times_stay_in_fixed_form_witness :
  Forall written (meetings_of no_files)
  /\ meetings_of
       (run Dateutil.parse Dateutil.fuzzy_rejects llm_unreachable
          [Turn wednesday "schedule standup at tomorrow 9am";
           Turn wednesday "schedule review at next friday 3pm";
           Prune wednesday;
           Turn wednesday "delete meeting standup"]
          no_files)
     = [mkmeeting "review" "2024-01-12 15:00"]
  /\ exists dt,
       valid_datetime dt = true
       /\ "2024-01-12 15:00" = strftime dt
       /\ ((1000 <= year dt)%Z ->
           fixed_form "2024-01-12 15:00" = true
           /\ strptime "2024-01-12 15:00" = Ret (to_minute dt)).
Proof.
  assert (H : Forall written (meetings_of no_files)) by constructor.
  split; [exact H|]. split; [reflexivity|].
  exact (ledger_times_stay_in_fixed_form Dateutil.parse Dateutil.fuzzy_rejects
           llm_unreachable InterpreterFacts.dateutil_parse_valid
           InterpreterFacts.fuzzy_rejects_valid
           [Turn wednesday "schedule standup at tomorrow 9am";
            Turn wednesday "schedule review at next friday 3pm";
            Prune wednesday;
            Turn wednesday "delete meeting standup"]
           no_files H (mkmeeting "review" "2024-01-12 15:00") (or_introl eq_refl)).
Defined.

Lemma history_changes_only_in_general_chat_witness :
  classify "hello" = RegularChat
  /\ llm_says_hi [HumanMessage "hello"] = Ret "hi"
  /\ chat_with_ai wednesday Dateutil.parse Dateutil.fuzzy_rejects llm_says_hi "hello" no_files
     = (Ret "hi", mkfiles None (Some [mkmessage human "hello"; mkmessage ai "hi"])).
Proof.
  split; [reflexivity|]. split; [reflexivity|].
  exact (proj1 (proj2 (history_changes_only_in_general_chat wednesday Dateutil.parse
                         Dateutil.fuzzy_rejects llm_says_hi "hello" no_files) eq_refl)
           "hi" eq_refl).
Defined.

(** * Further properties of the code *)

(** ** Ordinals and dates *)

Module OrdinalFacts.
Local Open Scope Z_scope.

Lemma check_from_sound (P : Z -> bool) (fuel : nat) :
  forall lo, check_from P fuel lo = true ->
             forall z, lo <= z < lo + Z.of_nat fuel -> P z = true.
Proof.
  induction fuel as [|f IH]; intros lo H z Hz; [lia|].
  cbn [check_from] in H. destruct (P lo) eqn:E; [|discriminate].
  destruct (Z.eq_dec z lo) as [->|Hne]; [exact E|].
  apply (IH (lo + 1) H). lia.
Qed.

Lemma month_day_checked (leapyear : bool) :
  check_from (month_day_ok leapyear) 365 0 = true.
Proof. destruct leapyear; vm_compute; reflexivity. Qed.

(** Month and day of the day of index [n] of a year, for the first 365
    days. *)
Lemma month_day_spec (leapyear : bool) (n : Z) :
  0 <= n < 365 ->
  let '(m, d) := month_day leapyear n in
  1 <= m <= 12
  /\ 1 <= d <= DAYS_IN_MONTH m + (if (m =? 2) && leapyear then 1 else 0)
  /\ DAYS_BEFORE_MONTH m + (if (2 <? m) && leapyear then 1 else 0) + d = n + 1.
Proof.
  intros Hn.
  pose proof (check_from_sound _ _ 0 (month_day_checked leapyear) n ltac:(lia)) as H.
  unfold month_day_ok in H. destruct (month_day leapyear n) as [m d].
  repeat (apply andb_true_iff in H; destruct H as [H ?]).
  repeat match goal with
         | E : (_ <=? _) = true |- _ => apply Z.leb_le in E
         | E : (_ =? _) = true |- _ => apply Z.eqb_eq in E
         end.
  repeat split; assumption.
Qed.

(** [ord2ymd] by its quotients: the years passed and, unless the day is the
    last of a 4-year or 400-year cycle, [month_day] of the day in its
    year. *)
Lemma ord2ymd_steps (n : Z) :
  let a := (n - 1) mod DI400Y in
  let b := a mod DI100Y in
  let c := b mod DI4Y in
  let n400 := (n - 1) / DI400Y in
  let n100 := a / DI100Y in
  let n4 := b / DI4Y in
  let n1 := c / 365 in
  let y := n400 * 400 + 1 + n100 * 100 + n4 * 4 + n1 in
  ord2ymd n
  = if (n1 =? 4) || (n100 =? 4) then (y - 1, 12, 31)
    else let '(m, d) := month_day ((n1 =? 3) && (negb (n4 =? 24) || (n100 =? 3)))
                                  (c mod 365) in
         (y, m, d).
Proof.
  cbv zeta. unfold ord2ymd, month_day. cbv zeta.
  destruct (_ || _); [reflexivity|].
  destruct (_ <? _); reflexivity.
Qed.

Lemma days_in_month_plain (y m : Z) :
  days_in_month y m = DAYS_IN_MONTH m + (if (m =? 2) && is_leap y then 1 else 0).
Proof.
  unfold days_in_month. destruct (Z.eqb_spec m 2) as [->|]; cbn [andb]; [|lia].
  destruct (is_leap y); reflexivity.
Qed.

(** The leap years, by the position of the year in its cycles. *)
Lemma is_leap_by_position (q n100 n4 n1 : Z) :
  0 <= n100 <= 3 -> 0 <= n4 <= 24 -> 0 <= n1 <= 3 ->
  is_leap (q * 400 + 1 + n100 * 100 + n4 * 4 + n1)
  = (n1 =? 3) && (negb (n4 =? 24) || (n100 =? 3)).
Proof.
  intros H100 H4 H1. unfold is_leap.
  set (y := q * 400 + 1 + n100 * 100 + n4 * 4 + n1).
  assert (E4 : y mod 4 = (n1 + 1) mod 4) by (subst y; Z.div_mod_to_equations; lia).
  assert (E100 : y mod 100 = (n4 * 4 + n1 + 1) mod 100)
    by (subst y; Z.div_mod_to_equations; lia).
  assert (E400 : y mod 400 = (n100 * 100 + n4 * 4 + n1 + 1) mod 400)
    by (subst y; Z.div_mod_to_equations; lia).
  rewrite E4, E100, E400.
  destruct (Z.eqb_spec n1 3) as [->|Hn1].
  - cbn [andb]. replace ((3 + 1) mod 4 =? 0) with true by reflexivity. cbn [andb].
    destruct (Z.eqb_spec n4 24) as [->|Hn4].
    + cbn [negb orb]. replace ((24 * 4 + 3 + 1) mod 100 =? 0) with true by reflexivity.
      cbn [negb orb].
      destruct (Z.eqb_spec n100 3) as [->|Hn100]; [reflexivity|].
      apply Z.eqb_neq. Z.div_mod_to_equations. lia.
    + cbn [negb orb].
      replace ((n4 * 4 + 3 + 1) mod 100 =? 0) with false; [reflexivity|].
      symmetry. apply Z.eqb_neq. Z.div_mod_to_equations. lia.
  - cbn [andb]. replace ((n1 + 1) mod 4 =? 0) with false; [reflexivity|].
    symmetry. apply Z.eqb_neq. Z.div_mod_to_equations. lia.
Qed.

Lemma days_before_year_by_position (q n100 n4 n1 : Z) :
  0 <= n100 <= 3 -> 0 <= n4 <= 24 -> 0 <= n1 <= 3 ->
  days_before_year (q * 400 + 1 + n100 * 100 + n4 * 4 + n1)
  = DI400Y * q + DI100Y * n100 + DI4Y * n4 + 365 * n1.
Proof.
  intros H100 H4 H1. unfold days_before_year, DI400Y, DI100Y, DI4Y. cbv zeta.
  Z.div_mod_to_equations. lia.
Qed.

(** The date of day [n]: its month and day are of the calendar, and its
    ordinal is [n]. *)
Lemma ord2ymd_date (n : Z) :
  1 <= n ->
  let '(y, m, d) := ord2ymd n in
  1 <= y /\ 1 <= m <= 12 /\ 1 <= d <= days_in_month y m /\ ymd2ord y m d = n.
Proof.
  intros Hn. rewrite ord2ymd_steps. cbv zeta.
  pose proof (Z.div_mod (n - 1) DI400Y ltac:(discriminate)) as Dq.
  pose proof (Z.mod_pos_bound (n - 1) DI400Y eq_refl) as Ba.
  set (q := (n - 1) / DI400Y) in *. set (a := (n - 1) mod DI400Y) in *.
  pose proof (Z.div_mod a DI100Y ltac:(discriminate)) as D100.
  pose proof (Z.mod_pos_bound a DI100Y eq_refl) as Bb.
  set (n100 := a / DI100Y) in *. set (b := a mod DI100Y) in *.
  pose proof (Z.div_mod b DI4Y ltac:(discriminate)) as D4.
  pose proof (Z.mod_pos_bound b DI4Y eq_refl) as Bc.
  set (n4 := b / DI4Y) in *. set (c := b mod DI4Y) in *.
  pose proof (Z.div_mod c 365 ltac:(discriminate)) as D1.
  pose proof (Z.mod_pos_bound c 365 eq_refl) as Br.
  set (n1 := c / 365) in *. set (r := c mod 365) in *.
  assert (Hq : 0 <= q) by (apply Z.div_pos; unfold DI400Y; lia).
  clearbody q a n100 b n4 c n1 r.
  unfold DI400Y, DI100Y, DI4Y in *.
  assert (H100 : 0 <= n100 <= 4) by lia.
  assert (H4 : 0 <= n4 <= 24) by lia.
  assert (H1 : 0 <= n1 <= 4) by lia.
  destruct (Z.eqb_spec n100 4) as [E100|E100].
  - (* the last day of a 400-year cycle *)
    rewrite orb_true_r.
    assert (n4 = 0 /\ n1 = 0 /\ r = 0) as [-> [-> ->]] by lia. subst n100.
    replace (q * 400 + 1 + 4 * 100 + 0 * 4 + 0 - 1)
      with ((q + 1) * 400 + 1 + 3 * 100 + 24 * 4 + 3 - 400) by lia.
    assert (L : is_leap ((q + 1) * 400 + 1 + 3 * 100 + 24 * 4 + 3 - 400) = true).
    { unfold is_leap.
      replace (((q + 1) * 400 + 1 + 3 * 100 + 24 * 4 + 3 - 400) mod 4) with 0
        by (Z.div_mod_to_equations; lia).
      replace (((q + 1) * 400 + 1 + 3 * 100 + 24 * 4 + 3 - 400) mod 400) with 0
        by (Z.div_mod_to_equations; lia).
      cbn. apply orb_true_r. }
    rewrite days_in_month_plain. unfold ymd2ord, days_before_month. rewrite L.
    change (12 =? 2) with false. change (2 <? 12) with true.
    cbn [DAYS_IN_MONTH DAYS_BEFORE_MONTH andb].
    unfold days_before_year. cbv zeta.
    repeat split; try lia. Z.div_mod_to_equations. lia.
  - rewrite orb_false_r. destruct (Z.eqb_spec n1 4) as [E1|E1].
    + (* the last day of a 4-year cycle *)
      subst n1. assert (r = 0) as -> by lia.
      assert (Hn4 : n4 <= 23) by lia.
      replace (q * 400 + 1 + n100 * 100 + n4 * 4 + 4 - 1)
        with (q * 400 + 1 + n100 * 100 + n4 * 4 + 3) by lia.
      rewrite days_in_month_plain. unfold ymd2ord, days_before_month.
      rewrite is_leap_by_position, days_before_year_by_position by lia.
      change (3 =? 3) with true. change (12 =? 2) with false. change (2 <? 12) with true.
      replace (n4 =? 24) with false by (symmetry; apply Z.eqb_neq; lia).
      cbn [DAYS_IN_MONTH DAYS_BEFORE_MONTH andb negb orb].
      unfold DI400Y, DI100Y, DI4Y. repeat split; lia.
    + (* a day of a year that is not the last of its cycle *)
      pose proof (month_day_spec ((n1 =? 3) && (negb (n4 =? 24) || (n100 =? 3))) r Br)
        as Hmd.
      destruct (month_day _ r) as [m d]. destruct Hmd as [Hm [Hd Ho]].
      rewrite days_in_month_plain. unfold ymd2ord, days_before_month.
      rewrite is_leap_by_position, days_before_year_by_position by lia.
      unfold DI400Y, DI100Y, DI4Y. repeat split; lia.
Qed.

Lemma days_before_year_mono (y : Z) :
  10000 <= y -> MAXORDINAL <= days_before_year y.
Proof. unfold days_before_year, MAXORDINAL. cbv zeta. intros H. Z.div_mod_to_equations. lia. Qed.

Lemma days_before_month_nonneg (y m : Z) : 1 <= m <= 12 -> 0 <= days_before_month y m.
Proof.
  intros H. unfold days_before_month.
  assert (0 <= DAYS_BEFORE_MONTH m).
  { assert (E : m = 1 \/ m = 2 \/ m = 3 \/ m = 4 \/ m = 5 \/ m = 6 \/ m = 7 \/ m = 8
                \/ m = 9 \/ m = 10 \/ m = 11 \/ m = 12) by lia.
    repeat (destruct E as [->|E]; [cbn; lia|]). subst. cbn. lia. }
  destruct ((2 <? m) && is_leap y); lia.
Qed.

(** What [dt + timedelta(days=k)] is when it does not overflow. *)
Lemma plus_days_returns (dt base : datetime) (k : Z) :
  plus_days dt k = Ret base ->
  toordinal base = toordinal dt + k
  /\ 1 <= year base <= 9999
  /\ 1 <= month base <= 12
  /\ 1 <= day base <= days_in_month (year base) (month base)
  /\ hour base = hour dt /\ minute base = minute dt
  /\ second base = second dt /\ microsecond base = microsecond dt.
Proof.
  unfold plus_days.
  destruct ((0 <? toordinal dt + k) && (toordinal dt + k <=? MAXORDINAL)) eqn:E;
    [|discriminate].
  apply andb_true_iff in E. destruct E as [E1 E2].
  apply Z.ltb_lt in E1. apply Z.leb_le in E2.
  pose proof (ord2ymd_date (toordinal dt + k) ltac:(lia)) as Hd.
  destruct (ord2ymd (toordinal dt + k)) as [[y m] d].
  destruct Hd as [Hy [Hm [Hdd Ho]]].
  assert (Hy9 : y <= 9999).
  { destruct (Z_le_gt_dec y 9999) as [|Hbig]; [assumption|].
    pose proof (days_before_year_mono y ltac:(lia)).
    pose proof (days_before_month_nonneg y m Hm).
    unfold ymd2ord in Ho. lia. }
  intros [= <-]. unfold toordinal in *. cbn [year month day hour minute second microsecond].
  repeat split; lia.
Qed.

End OrdinalFacts.

(** ** The ledger, operation after operation *)

Module LedgerMoreFacts.
Import LedgerFacts.

Lemma fold_left_lines (l : list meeting) (init : string) :
  fold_left (fun result m => (result ++ meeting_line m)%string) l init
  = (init ++ String.concat "" (map meeting_line l))%string.
Proof.
  revert init. induction l as [|m l IH]; intros init; cbn [fold_left map].
  - cbn. now rewrite TextFacts.append_empty.
  - rewrite IH, TextFacts.append_assoc. f_equal.
    destruct l as [|m' l]; cbn [map String.concat].
    + now rewrite TextFacts.append_empty.
    + reflexivity.
Qed.

Lemma strptime_raises_value_error (s : string) (e : exn) :
  strptime s = Raise e -> e = ValueError.
Proof.
  unfold strptime.
  destruct (read_fields s) as [[[[[[y m] d] h] mi] [|c r]]|]; try congruence.
  unfold new_datetime. destruct (valid_datetime _); congruence.
Qed.

Lemma active_meetings_raises (now : datetime) (l : list meeting) :
  Exists (fun m => ~ readable m) l -> active_meetings now l = Raise ValueError.
Proof.
  induction l as [|m l IH]; intros H; [inversion H|].
  cbn [active_meetings].
  destruct (strptime (time m)) as [dt|e] eqn:E.
  - cbn [obind]. rewrite IH; [reflexivity|].
    inversion H as [? ? Hm|? ? Hl]; subst; [|assumption].
    exfalso. apply Hm. now exists dt.
  - cbn [obind]. now rewrite (strptime_raises_value_error _ _ E).
Qed.

Lemma lex_ltb_between (a : list Z) :
  forall b c, List.length a = List.length b -> List.length b = List.length c ->
              lex_ltb b a = false -> lex_ltb b c = true -> lex_ltb a c = true.
Proof.
  induction a as [|x a IH]; intros [|y b] [|z c] Hab Hbc Hba Hbc';
    try discriminate; cbn [lex_ltb] in *.
  apply orb_false_iff in Hba. destruct Hba as [H1 H2].
  apply Z.ltb_ge in H1.
  apply orb_true_iff in Hbc'. apply orb_true_iff.
  destruct Hbc' as [H3|H3].
  - apply Z.ltb_lt in H3. destruct (Z.eq_dec x y) as [->|Hne].
    + left. now apply Z.ltb_lt.
    + left. apply Z.ltb_lt. lia.
  - apply andb_true_iff in H3. destruct H3 as [H3 H4]. apply Z.eqb_eq in H3. subst z.
    destruct (Z.eq_dec x y) as [->|Hne].
    + rewrite Z.eqb_refl in H2. cbn in H2. right. rewrite Z.eqb_refl. cbn.
      apply (IH b c); auto.
    + left. apply Z.ltb_lt. lia.
Qed.

Lemma datetime_ltb_between (a b c : datetime) :
  datetime_ltb b a = false -> datetime_ltb b c = true -> datetime_ltb a c = true.
Proof. unfold datetime_ltb. apply lex_ltb_between; reflexivity. Qed.

Lemma filter_of_stricter {A : Type} (p q : A -> bool) (l : list A) :
  (forall x, In x l -> q x = true -> p x = true) ->
  filter q (filter p l) = filter q l.
Proof.
  induction l as [|x l IH]; intros H; [reflexivity|]. cbn [filter].
  destruct (p x) eqn:Ep; cbn [filter].
  - destruct (q x); rewrite IH; auto; intros; apply H; auto; now right.
  - destruct (q x) eqn:Eq.
    + rewrite (H x (or_introl eq_refl) Eq) in Ep. discriminate.
    + apply IH. intros; apply H; auto; now right.
Qed.

Lemma readable_filter (p : meeting -> bool) (l : list meeting) :
  Forall readable l -> Forall readable (filter p l).
Proof.
  intros H. apply Forall_forall. intros m Hm. apply filter_In in Hm.
  rewrite Forall_forall in H. now apply H.
Qed.

Lemma add_meeting_runs (t0 t : string) (fs : files) :
  add_meeting t0 t fs
  = (Ret ("Meeting '" ++ t0 ++ "' scheduled for " ++ t ++ ".")%string,
     write MEETINGS_FILE (meetings_of fs ++ [mkmeeting t0 t])%list fs).
Proof. unfold add_meeting, bind. now rewrite load_meetings. Qed.

End LedgerMoreFacts.

Section LedgerCompositions.
Import LedgerFacts LedgerMoreFacts.

(** X1.  [show_meetings] writes nothing; its answer is the fixed "no meetings"
    text exactly for an empty (or absent) list, and otherwise the heading
    followed by one line per stored meeting, in order, whatever their times. *)
Theorem show_meetings_lists_every_meeting :
  forall fs : files,
    show_meetings fs
    = (Ret (match meetings_of fs with
            | [] => "No upcoming meetings found."
            | _ => " Upcoming Meetings:" ++ String "010" ""
                   ++ String.concat "" (map meeting_line (meetings_of fs))
            end), fs).
Proof.
  intros fs. unfold show_meetings, bind. rewrite load_meetings.
  destruct (meetings_of fs) as [|m l] eqn:E; [reflexivity|].
  unfold ret. f_equal. f_equal.
  change (fun (result : string) (m0 : meeting) =>
            (result ++ "- " ++ title m0 ++ " at " ++ time m0 ++ String "010" "")%string)
    with (fun result m0 => (result ++ meeting_line m0)%string).
  rewrite fold_left_lines. now rewrite TextFacts.append_assoc.
Qed.

(** X2.  A stored time the fixed format does not read makes
    [cleanup_old_meetings] raise [ValueError] and leave both resources as
    they were. *)
Theorem cleanup_old_meetings_fails_on_unreadable_time :
  forall (now : datetime) (fs : files),
    Exists (fun m => ~ readable m) (meetings_of fs) ->
    cleanup_old_meetings now fs = (Raise ValueError, fs).
Proof.
  intros now fs H. rewrite cleanup_old_meetings_runs.
  now rewrite active_meetings_raises.
Qed.

(** X3.  Pruning at a clock reading and then at one that is not earlier leaves
    what pruning at the later reading alone leaves. *)
Theorem cleanup_old_meetings_later_subsumes :
  forall (now1 now2 : datetime) (fs : files),
    Forall readable (meetings_of fs) ->
    datetime_ltb now2 now1 = false ->
    snd (cleanup_old_meetings now2 (snd (cleanup_old_meetings now1 fs)))
    = snd (cleanup_old_meetings now2 fs).
Proof.
  intros now1 now2 fs Hr Hle.
  rewrite (cleanup_old_meetings_runs now1), (active_meetings_filter now1 _ Hr).
  cbn [snd]. rewrite !cleanup_old_meetings_runs, meetings_of_write.
  rewrite (active_meetings_filter now2 _ Hr).
  rewrite (active_meetings_filter now2 _ (readable_filter _ _ Hr)).
  cbn [snd]. rewrite filter_of_stricter; [reflexivity|].
  intros m _. unfold still_ahead.
  destruct (strptime (time m)) as [dt|]; [|discriminate].
  now apply datetime_ltb_between.
Qed.

(** X4.  Deleting by title just after adding a meeting: the new meeting goes
    with every other match when its title equals the deleted one without
    regard to case, and then the answer is "Deleted"; otherwise it stays
    last. *)
Theorem delete_meeting_after_add_meeting :
  forall (t0 time0 t : string) (fs : files),
    let added := mkmeeting t0 time0 in
    let others := filter (fun m => negb (same_title t m)) (meetings_of fs) in
    snd (delete_meeting t (snd (add_meeting t0 time0 fs)))
    = write MEETINGS_FILE (others ++ (if same_title t added then [] else [added]))%list fs
    /\ (same_title t added = true ->
        fst (delete_meeting t (snd (add_meeting t0 time0 fs)))
        = Ret ("Deleted meeting '" ++ t ++ "'.")%string).
Proof.
  intros t0 time0 t fs added others.
  rewrite add_meeting_runs. cbn [snd]. rewrite delete_meeting_runs, meetings_of_write.
  cbv zeta. rewrite filter_app. cbn [filter]. fold added. fold others.
  split.
  - cbn [snd]. destruct (same_title t added); reflexivity.
  - intros Hs. cbn [fst]. rewrite Hs. cbn [negb]. rewrite app_nil_r.
    pose proof (filter_length_le (fun m => negb (same_title t m)) (meetings_of fs)) as Hle.
    fold others in Hle.
    replace (List.length others <? List.length (meetings_of fs ++ [added])%list)%nat with true;
      [reflexivity|].
    symmetry. apply Nat.ltb_lt. rewrite length_app. cbn. lia.
Qed.

(** X5.  On a ledger whose stored times the fixed format reads, pruning
    just after adding a meeting whose time [strftime] wrote from a
    well-formed [datetime] of the year 1000 or later: the new meeting stays
    exactly when its time, cut to the minute, is strictly after the clock
    reading. *)
Theorem cleanup_old_meetings_after_add_meeting :
  forall (now dt : datetime) (t0 : string) (fs : files),
    valid_datetime dt = true ->
    (1000 <= year dt)%Z ->
    Forall readable (meetings_of fs) ->
    cleanup_old_meetings now (snd (add_meeting t0 (strftime dt) fs))
    = (Ret tt,
       write MEETINGS_FILE
         (filter (still_ahead now) (meetings_of fs)
          ++ (if datetime_ltb now (to_minute dt)
              then [mkmeeting t0 (strftime dt)] else []))%list
         fs).
Proof.
  intros now dt t0 fs Hv Hy Hr.
  rewrite add_meeting_runs. cbn [snd].
  rewrite cleanup_old_meetings_runs, meetings_of_write.
  assert (Hm : strptime (time (mkmeeting t0 (strftime dt))) = Ret (to_minute dt))
    by (cbn [time]; now apply CalendarFacts.strptime_strftime).
  rewrite active_meetings_filter.
  - rewrite filter_app. cbn [filter]. unfold still_ahead at 2. rewrite Hm.
    destruct (datetime_ltb now (to_minute dt)); reflexivity.
  - apply Forall_app. split; [exact Hr|]. constructor; [|constructor].
    now exists (to_minute dt).
Qed.

(** X22.  Pruning just after adding a meeting whose time [strftime] wrote
    from a well-formed [datetime] of a year below 1000: the new meeting is
    stored, its time is not read back, and the pruning raises [ValueError]
    and leaves the stored list as the addition left it. *)
Theorem cleanup_old_meetings_fails_after_short_year :
  forall (now dt : datetime) (t0 : string) (fs : files),
    valid_datetime dt = true ->
    (year dt < 1000)%Z ->
    let fs' := snd (add_meeting t0 (strftime dt) fs) in
    meetings_of fs' = (meetings_of fs ++ [mkmeeting t0 (strftime dt)])%list
    /\ strptime (strftime dt) = Raise ValueError
    /\ cleanup_old_meetings now fs' = (Raise ValueError, fs').
Proof.
  intros now dt t0 fs Hv Hy fs'.
  pose proof (CalendarFacts.strptime_strftime_short_year dt Hv Hy) as Hs.
  assert (Hm : meetings_of fs' = (meetings_of fs ++ [mkmeeting t0 (strftime dt)])%list).
  { unfold fs'. rewrite add_meeting_runs. cbn [snd]. now rewrite meetings_of_write. }
  split; [exact Hm|]. split; [exact Hs|].
  rewrite cleanup_old_meetings_runs, Hm.
  rewrite active_meetings_raises; [reflexivity|].
  apply Exists_app. right. constructor. intros [dt' Hdt'].
  cbn [time] in Hdt'. rewrite Hs in Hdt'. discriminate.
Qed.

End LedgerCompositions.

(** ** Case, white space and base dates *)

Module CaseFacts.
Import Text.

Lemma lower_char_twice (c : ascii) : lower_char (lower_char c) = lower_char c.
Proof. destruct c as [[] [] [] [] [] [] [] []]; reflexivity. Qed.

Lemma isspace_lower_char (c : ascii) : isspace (lower_char c) = isspace c.
Proof. destruct c as [[] [] [] [] [] [] [] []]; reflexivity. Qed.

Lemma lower_twice (s : string) : lower (lower s) = lower s.
Proof. induction s as [|c s IH]; cbn [lower]; [reflexivity|]. now rewrite lower_char_twice, IH. Qed.

Lemma lower_lstrip (s : string) : lower (lstrip s) = lstrip (lower s).
Proof.
  induction s as [|c s IH]; [reflexivity|]. cbn [lstrip lower].
  rewrite isspace_lower_char. destruct (isspace c); [exact IH | reflexivity].
Qed.

Lemma lower_rstrip (s : string) : lower (rstrip s) = rstrip (lower s).
Proof.
  induction s as [|c s IH]; [reflexivity|]. cbn [rstrip lower].
  rewrite <- IH. destruct (rstrip s) as [|d r]; cbn [lower].
  - rewrite isspace_lower_char. now destruct (isspace c).
  - reflexivity.
Qed.

Lemma lower_strip (s : string) : lower (strip s) = strip (lower s).
Proof. unfold strip. now rewrite lower_rstrip, lower_lstrip. Qed.

Lemma lstrip_clean_start (s : string) : clean_start (lstrip s).
Proof.
  induction s as [|c s IH]; [exact I|]. cbn [lstrip].
  destruct (isspace c) eqn:E; [exact IH | exact E].
Qed.

Lemma lstrip_of_clean_start (s : string) : clean_start s -> lstrip s = s.
Proof. destruct s as [|c s]; [reflexivity|]. cbn. now intros ->. Qed.

Lemma rstrip_clean_start (s : string) : clean_start s -> clean_start (rstrip s).
Proof.
  destruct s as [|c s]; [trivial|]. cbn [clean_start rstrip]. intros E.
  destruct (rstrip s); [rewrite E|]; exact E.
Qed.

Lemma rstrip_twice (s : string) : rstrip (rstrip s) = rstrip s.
Proof.
  induction s as [|c s IH]; [reflexivity|]. cbn [rstrip].
  destruct (rstrip s) as [|d r] eqn:E.
  - destruct (isspace c) eqn:Ec; [reflexivity|]. cbn [rstrip]. now rewrite Ec.
  - cbn [rstrip]. cbn [rstrip] in IH. rewrite IH. reflexivity.
Qed.

Lemma strip_twice (s : string) : strip (strip s) = strip s.
Proof.
  unfold strip.
  rewrite (lstrip_of_clean_start (rstrip (lstrip s)))
    by (apply rstrip_clean_start, lstrip_clean_start).
  apply rstrip_twice.
Qed.

End CaseFacts.

Section BaseDates.
Import OrdinalFacts.
Local Open Scope Z_scope.

(** X7.  The day [now + timedelta(days=k)] names, when the sum does not
    overflow, is a date of the calendar, [k] days after [now] by its ordinal,
    with the clock fields of [now]; its weekday is the weekday of [now]
    moved on by [k]; and it is a well-formed [datetime] when [now] is. *)
Theorem plus_days_is_k_days_later :
  forall (dt base : datetime) (k : Z),
    plus_days dt k = Ret base ->
    toordinal base = toordinal dt + k
    /\ weekday base = (weekday dt + k) mod 7
    /\ 1 <= year base <= 9999
    /\ 1 <= month base <= 12
    /\ 1 <= day base <= days_in_month (year base) (month base)
    /\ (hour base, minute base, second base, microsecond base)
       = (hour dt, minute dt, second dt, microsecond dt)
    /\ (valid_datetime dt = true -> valid_datetime base = true).
Proof.
  intros dt base k H.
  destruct (plus_days_returns dt base k H)
    as [Ho [Hy [Hm [Hd [Hh [Hmi [Hs Hus]]]]]]].
  split; [exact Ho|]. split.
  { unfold weekday. rewrite Ho. Z.div_mod_to_equations. lia. }
  split; [exact Hy|]. split; [exact Hm|]. split; [exact Hd|]. split.
  { now rewrite Hh, Hmi, Hs, Hus. }
  unfold valid_datetime. rewrite Hh, Hmi, Hs, Hus. intros Hv.
  repeat (apply andb_true_iff in Hv; destruct Hv as [Hv ?]).
  repeat (apply andb_true_iff; split); try assumption; apply Z.leb_le; lia.
Qed.

(** X8.  The base date of the "next <weekday>" branch, for the weekday of
    index [i] (Monday 0 to Sunday 6), falls on that weekday, at least one
    day and at most seven days after the day of [now]. *)
Theorem next_weekday_base_date_is_that_weekday :
  forall (now : datetime) (i : Z) (base : datetime),
    0 <= i <= 6 ->
    plus_days now (days_ahead now i) = Ret base ->
    weekday base = i
    /\ 1 <= toordinal base - toordinal now <= 7.
Proof.
  intros now i base Hi H.
  destruct (plus_days_returns now base _ H) as [Ho _].
  unfold weekday. rewrite Ho. unfold days_ahead, weekday. cbv zeta.
  destruct (Z.eqb_spec ((i - (toordinal now + 6) mod 7 + 7) mod 7) 0) as [E|E].
  - split; [|lia]. Z.div_mod_to_equations. lia.
  - split; Z.div_mod_to_equations; lia.
Qed.

End BaseDates.

Section InterpreterMore.
Import InterpreterFacts OrdinalFacts CaseFacts.
Local Open Scope Z_scope.

Variable now : datetime.
Variable date_parser_parse : string -> outcome datetime.
Variable fuzzy_parse : string -> datetime -> outcome datetime.

Local Abbreviation interpret := (parse_natural_datetime now date_parser_parse fuzzy_parse).

(** X9.  Without "tomorrow" and without any "next <weekday>" phrase the
    interpreter never raises: it returns what the fuzzy parser found, in the
    fixed format, and [None] when the fuzzy parser raised. *)
Theorem fallback_returns_none_on_failure :
  forall text0 : string,
    let text := Text.strip (Text.lower text0) in
    Text.contains "tomorrow" text = false ->
    (forall day, In day days_map -> Text.contains ("next " ++ day) text = false) ->
    interpret text0
    = match fuzzy_parse text now with
      | Ret dt => Ret (Some (strftime dt))
      | Raise _ => Ret None
      end.
Proof.
  intros text0 text Ht Hd. unfold parse_natural_datetime. fold text. rewrite Ht.
  assert (E : forall days i, (forall day, In day days ->
                                Text.contains ("next " ++ day) text = false) ->
                next_weekday now date_parser_parse i days text = None).
  { induction days as [|d days IH]; intros i Hall; [reflexivity|].
    cbn [next_weekday]. rewrite (Hall d (or_introl eq_refl)).
    apply IH. intros day Hin. apply Hall. now right. }
  now rewrite (E days_map 0 Hd).
Qed.

(** X10.  In the "tomorrow" branch whatever the strict parser raises on the
    next day's date and the token leaves the interpreter as that exception,
    and so does the overflow of the date. *)
Theorem tomorrow_branch_lets_exceptions_out :
  forall text0 : string,
    let text := Text.strip (Text.lower text0) in
    Text.contains "tomorrow" text = true ->
    (forall e, plus_days now 1 = Raise e -> interpret text0 = Raise e)
    /\ (forall base e,
          plus_days now 1 = Ret base ->
          date_parser_parse (strftime_date base ++ " " ++ token_or_default text)%string
          = Raise e ->
          interpret text0 = Raise e).
Proof.
  intros text0 text Ht. unfold parse_natural_datetime. fold text. rewrite Ht.
  unfold date_with_clock. fold (token_or_default text). split.
  - intros e He. now rewrite He.
  - intros base e Hb He. rewrite Hb. cbn [obind]. now rewrite He.
Qed.

(** X11.  The interpreter looks at its text without regard to letter case or
    to white space around it. *)
Theorem interpreter_ignores_case_and_outer_space :
  forall text0 : string,
    interpret (Text.lower text0) = interpret text0
    /\ interpret (Text.strip text0) = interpret text0.
Proof.
  intros text0. unfold parse_natural_datetime. split.
  - now rewrite lower_twice.
  - now rewrite lower_strip, strip_twice.
Qed.

End InterpreterMore.

(** ** Turns and the terminal loop *)

Module TurnFacts.
Import Text TextFacts RouterFacts LedgerFacts LedgerMoreFacts.

Lemma add_title_with_separator (u : string) (i : nat) :
  find " at " u = Some i ->
  add_title u = Ret (strip (strip_keywords add_keywords (take i u))).
Proof.
  intros H. unfold add_title.
  now rewrite (split_some " at " 3 u i separator_length H).
Qed.

Lemma find_contains_lower (u : string) (i : nat) :
  find " at " u = Some i -> contains " at " (lower u) = true.
Proof.
  intros H. apply (contains_lower " at " u).
  destruct (contains " at " u) eqn:E; [reflexivity|].
  apply contains_find in E. congruence.
Qed.

(** What the add branch does to the meeting list: nothing, or one meeting
    appended. *)
Lemma add_branch_appends now dp fz (u : string) (fs : files) :
  let fs' := snd (add_branch now dp fz u fs) in
  history_json fs' = history_json fs
  /\ (meetings_json fs' = meetings_json fs
      \/ exists m, meetings_json fs' = Some (meetings_of fs ++ [m])%list).
Proof.
  unfold add_branch.
  destruct (contains " at " (lower u)); [|split; [reflexivity | now left]].
  unfold bind, lift.
  destruct (add_title u) as [t0|]; [|split; [reflexivity | now left]].
  destruct (add_time_text u) as [tt|]; [|split; [reflexivity | now left]].
  destruct (parse_natural_datetime now dp fz tt) as [parsed|];
    [|split; [reflexivity | now left]].
  destruct (truthy parsed) as [t|]; [|split; [reflexivity | now left]].
  rewrite add_meeting_runs. cbn [snd]. split; [reflexivity|]. right. now eexists.
Qed.

(** A turn raises only when the model call does, before anything is
    written. *)
Lemma chat_with_ai_raises now dp fz llm (u : string) (fs : files) (e : exn) :
  fst (chat_with_ai now dp fz llm u fs) = Raise e ->
  classify u = RegularChat
  /\ llm (map of_record (history_of fs) ++ [HumanMessage u])%list = Raise e
  /\ snd (chat_with_ai now dp fz llm u fs) = fs.
Proof.
  rewrite chat_with_ai_reads_history. destruct (classify u).
  - unfold bind, try_except, ret, save_json.
    destruct (add_branch now dp fz u fs) as [[r|e'] fs1]; discriminate.
  - unfold show_meetings, bind, ret, save_json. rewrite load_meetings.
    destruct (meetings_of fs); discriminate.
  - unfold bind. rewrite delete_meeting_runs. discriminate.
  - unfold bind, lift, ret, save_json.
    destruct (llm _) as [r|e'] eqn:E; [discriminate|].
    cbn [fst snd]. intros [= ->]. auto.
Qed.

End TurnFacts.

Section TurnTheorems.
Import Text TextFacts RouterFacts LedgerFacts LedgerMoreFacts TurnFacts CaseFacts.

Variable now : datetime.
Variable date_parser_parse : string -> outcome datetime.
Variable fuzzy_parse : string -> datetime -> outcome datetime.
Variable llm_invoke : list lc_message -> outcome string.

Local Abbreviation chat := (chat_with_ai now date_parser_parse fuzzy_parse llm_invoke).
Local Abbreviation interpret := (parse_natural_datetime now date_parser_parse fuzzy_parse).

(** X14.  An add turn whose utterance holds " at ", first at index [i]: the
    title is the trimmed text before it with the lower-case add keywords
    taken out, and the turn follows the interpreter's answer on the time
    text.  A non-empty time appends one meeting under that title and
    confirms it; no time gives the "couldn't understand the time" reply; an
    exception gives the generic failure reply; the last two store no
    meeting.  The history is rewritten with what it held. *)
Theorem add_turn_follows_the_interpreter :
  forall (u : string) (i : nat) (fs : files),
    classify u = AddMeeting ->
    find " at " u = Some i ->
    let title0 := strip (strip_keywords add_keywords (take i u)) in
    let time_text := strip (before_first " at " (drop (i + 4) u)) in
    let saved := write HISTORY_FILE (history_of fs) in
    chat u fs
    = match interpret time_text with
      | Ret (Some (String c t)) =>
          (Ret ("Meeting '" ++ title0 ++ "' scheduled for " ++ String c t ++ "."),
           saved (write MEETINGS_FILE
                    (meetings_of fs ++ [mkmeeting title0 (String c t)])%list fs))
      | Ret _ => (Ret reply_time_not_understood, saved fs)
      | Raise _ => (Ret reply_parse_failure, saved fs)
      end.
Proof.
  intros u i fs Hc Hf title0 time_text saved.
  rewrite chat_with_ai_reads_history, Hc. unfold add_branch.
  rewrite (find_contains_lower u i Hf).
  rewrite (add_title_with_separator u i Hf), (add_time_text_with_separator u i Hf).
  fold title0. fold time_text.
  unfold saved, add_meeting, try_except, lift, load_json, save_json, ret, bind.
  cbn [read write MEETINGS_FILE HISTORY_FILE].
  destruct (interpret time_text) as [[[|c t]|]|e]; cbn [truthy];
    unfold meetings_of; destruct (meetings_json fs); cbn;
    now rewrite records_round_trip.
Qed.

(** X15.  No turn changes or reorders the meetings already stored, except by
    removing them in a delete turn: after a turn the list is the list
    before, or (delete turn) the list before without the entries under the
    title taken from the utterance, or (add turn) the list before with one
    meeting appended. *)
Theorem turn_keeps_stored_meetings :
  forall (u : string) (fs : files),
    let fs' := snd (chat u fs) in
    meetings_json fs' = meetings_json fs
    \/ (classify u = DeleteMeeting
        /\ meetings_json fs'
           = Some (filter (fun m => negb (same_title
                                            (strip (strip_keywords delete_keywords u)) m))
                          (meetings_of fs)))
    \/ (classify u = AddMeeting
        /\ exists m, meetings_json fs' = Some (meetings_of fs ++ [m])%list).
Proof.
  intros u fs. cbv zeta. rewrite chat_with_ai_reads_history.
  destruct (classify u) eqn:Hc.
  - pose proof (add_branch_appends now date_parser_parse fuzzy_parse u fs) as [_ Hb].
    unfold bind, try_except, ret, save_json.
    destruct (add_branch now date_parser_parse fuzzy_parse u fs) as [[r|e] fs1];
      cbn [snd] in *; (destruct Hb as [Hb|Hb]; [left; exact Hb | right; right; auto]).
  - left. unfold show_meetings, bind, ret, save_json. rewrite load_meetings.
    now destruct (meetings_of fs).
  - right. left. split; [reflexivity|].
    unfold bind. rewrite delete_meeting_runs. reflexivity.
  - left. unfold bind, lift, ret, save_json. now destruct (llm_invoke _).
Qed.

(** X16.  The router sorts an utterance by its lower-cased copy alone: the
    lower-cased utterance gets the same intent. *)
Theorem classify_ignores_case :
  forall u : string, classify (lower u) = classify u.
Proof. intros u. unfold classify. now rewrite lower_twice. Qed.

End TurnTheorems.

Module MainFacts.
Import LedgerFacts LedgerMoreFacts TurnFacts InvariantFacts.

Lemma printed_app (a b : list output) :
  printed (a ++ b) = (printed a ++ printed b)%string.
Proof.
  induction a as [|[t s|t e|t] a IH]; cbn [app printed]; [reflexivity| | |];
    rewrite IH; now rewrite ?TextFacts.append_assoc.
Qed.

Lemma printed_typing_chars (text : string) : printed (typing_chars text) = text.
Proof. induction text as [|c r IH]; cbn; [reflexivity|]. now rewrite IH. Qed.

Lemma active_meetings_raised (now : datetime) (l : list meeting) (e : exn) :
  active_meetings now l = Raise e ->
  e = ValueError /\ Exists (fun m => ~ readable m) l.
Proof.
  induction l as [|m l IH]; cbn [active_meetings]; [discriminate|].
  destruct (strptime (time m)) as [dt|e1] eqn:E; cbn [obind].
  - destruct (active_meetings now l) as [a|e2]; cbn [obind]; [discriminate|].
    intros [= ->]. destruct (IH eq_refl) as [-> Hex]. split; [reflexivity|].
    now apply Exists_cons_tl.
  - intros [= ->]. split; [exact (strptime_raises_value_error _ _ E)|].
    apply Exists_cons_hd. intros [dt Hdt]. congruence.
Qed.

End MainFacts.

Section MainTheorems.
Import LedgerFacts LedgerMoreFacts TurnFacts InvariantFacts MainFacts.

Variable clock : nat -> datetime.
Variable date_parser_parse : string -> outcome datetime.
Variable fuzzy_parse : string -> datetime -> outcome datetime.
Variable llm_invoke : list lc_message -> outcome string.

Local Abbreviation loop := (main_loop clock date_parser_parse fuzzy_parse llm_invoke).
Local Abbreviation session := (main clock date_parser_parse fuzzy_parse llm_invoke).

(** X17.  [typing_effect] prints the text, character by character, and then a
    line break: nothing is lost or added. *)
Theorem typing_effect_prints_the_text :
  forall text : string,
    printed (typing_effect text) = (text ++ newline)%string
    /\ List.length (typing_effect text) = S (String.length text).
Proof.
  intros text. unfold typing_effect. split.
  - rewrite printed_app, printed_typing_chars. reflexivity.
  - rewrite length_app. cbn [List.length].
    induction text as [|c r IH]; cbn [typing_chars List.length String.length] in *; lia.
Qed.

(** X18.  The loop stops at the first line that reads "exit" or "quit" once
    trimmed and lower-cased: the lines after it are not read. *)
Theorem main_stops_at_exit :
  forall (pre : list string) (line : string) (post : list string) (fs : files),
    is_exit (Text.strip line) = true ->
    session (pre ++ line :: post) fs = session (pre ++ [line]) fs.
Proof.
  intros pre line post fs He. unfold main.
  destruct (cleanup_old_meetings (clock 0) fs) as [[[]|e] fs0]; [|reflexivity].
  assert (E : forall turn fs1, loop turn (pre ++ line :: post) fs1
                               = loop turn (pre ++ [line]) fs1).
  { induction pre as [|l pre IH]; intros turn fs1; cbn [app main_loop].
    - now rewrite He.
    - destruct (is_exit (Text.strip l)); [reflexivity|].
      destruct (chat_with_ai _ _ _ _ _ fs1) as [[r|e] fs2]; [|reflexivity].
      now rewrite IH. }
  now rewrite E.
Qed.

(** X19.  When a stored time is not readable under the fixed format the
    program fails at start-up with [ValueError]: the banner is all it
    prints, no line is read and both resources stay as they were. *)
Theorem main_fails_on_unreadable_ledger :
  forall (lines : list string) (fs : files),
    Exists (fun m => ~ readable m) (meetings_of fs) ->
    session lines fs = (banner, Failed ValueError, fs).
Proof.
  intros lines fs H. unfold main.
  rewrite cleanup_old_meetings_runs, (active_meetings_raises _ _ H). reflexivity.
Qed.

(** X20.  A run of [main] ends with an exception only at start-up, on a
    stored time the format does not read, or when a model call raised:
    nothing the interpreter or the ledger raises during a turn leaves the
    loop. *)
Theorem main_fails_only_at_startup_or_in_the_model :
  forall (lines : list string) (fs : files) (e : exn),
    snd (fst (session lines fs)) = Failed e ->
    (e = ValueError /\ Exists (fun m => ~ readable m) (meetings_of fs))
    \/ exists transcript, llm_invoke transcript = Raise e.
Proof.
  intros lines fs e. unfold main. rewrite cleanup_old_meetings_runs.
  destruct (active_meetings (clock 0) (meetings_of fs)) as [a|e0] eqn:Ea.
  - intros H. right.
    assert (E : forall lines turn fs1,
               snd (fst (loop turn lines fs1)) = Failed e ->
               exists transcript, llm_invoke transcript = Raise e).
    { clear. induction lines as [|l lines IH]; intros turn fs1; cbn [main_loop].
      - discriminate.
      - destruct (is_exit (Text.strip l)); [discriminate|].
        destruct (chat_with_ai _ _ _ _ _ fs1) as [[r|e1] fs2] eqn:Ec.
        + specialize (IH (S turn) fs2).
          destruct (loop (S turn) lines fs2) as [[out e2] fs3]. exact IH.
        + cbn [fst snd]. intros [= ->].
          pose proof (chat_with_ai_raises (clock (S turn)) date_parser_parse fuzzy_parse
                        llm_invoke (Text.strip l) fs1 e) as Hr.
          rewrite Ec in Hr. destruct (Hr eq_refl) as [_ [Hl _]]. eauto. }
    destruct (loop 0 lines (write MEETINGS_FILE a fs)) as [[out e2] fs3] eqn:El.
    apply (E lines 0%nat (write MEETINGS_FILE a fs)). now rewrite El.
  - cbn [fst snd]. intros [= <-]. left.
    destruct (active_meetings_raised _ _ _ Ea) as [-> Hex]. auto.
Qed.

(** X21.  When the two parsers only return well-formed datetimes, a whole
    run of [main], however it ends, from a ledger whose stored times
    [strftime] wrote from well-formed datetimes, leaves such a ledger; and a
    stored time written from a year of four digits has the fixed form and is
    read back. *)
Theorem main_keeps_stored_times_from_strftime :
  (forall s dt, date_parser_parse s = Ret dt -> valid_datetime dt = true) ->
  (forall s d dt, fuzzy_parse s d = Ret dt -> valid_datetime dt = true) ->
  forall (lines : list string) (fs : files),
    Forall written (meetings_of fs) ->
    forall m, In m (meetings_of (snd (session lines fs))) ->
      exists dt,
        valid_datetime dt = true
        /\ time m = strftime dt
        /\ ((1000 <= year dt)%Z -> time_ok m).
Proof.
  intros Hdp Hfz lines fs H m Hm.
  assert (Hw : Forall written (meetings_of (snd (session lines fs)))).
  { clear m Hm. unfold main.
    pose proof (kept_cleanup_old_meetings written (clock 0) fs H) as H0.
    destruct (cleanup_old_meetings (clock 0) fs) as [[[]|e] fs0]; cbn [snd] in *;
      [|exact H0].
    assert (E : forall lines turn fs1,
               Forall written (meetings_of fs1) ->
               Forall written (meetings_of (snd (loop turn lines fs1)))).
    { clear - Hdp Hfz.
      induction lines as [|l lines IH]; intros turn fs1 H1; cbn [main_loop].
      - exact H1.
      - destruct (is_exit (Text.strip l)); [exact H1|].
        assert (H2 : Forall written
                       (meetings_of (snd (chat_with_ai (clock (S turn)) date_parser_parse
                                            fuzzy_parse llm_invoke (Text.strip l) fs1)))).
        { apply kept_chat_with_ai; [| |exact H1].
          - intros t0 s dt Hs. apply written_strftime. eauto.
          - intros t0 s d dt Hs. apply written_strftime. eauto. }
        destruct (chat_with_ai _ _ _ _ _ fs1) as [[r|e1] fs2]; cbn [snd] in *; [|exact H2].
        specialize (IH (S turn) fs2 H2).
        destruct (loop (S turn) lines fs2) as [[out e2] fs3]. exact IH. }
    specialize (E lines 0%nat fs0 H0).
    destruct (loop 0 lines fs0) as [[out e2] fs3]. exact E. }
  rewrite Forall_forall in Hw. destruct (Hw m Hm) as [dt [Hv Ht]].
  exists dt. split; [exact Hv|]. split; [exact Ht|]. intros Hy.
  destruct m as [t0 t]. cbn [time] in Ht. subst t. now apply time_ok_strftime.
Qed.

End MainTheorems.

(** ** The further properties at concrete inputs *)

(** X6.  What [strftime] writes for a well-formed [datetime] of the year
    1000 or later has the fixed lexical form, and [strptime] reads it back as
    the same instant cut to the minute; what it writes for a year below 1000
    is shorter, and [strptime] raises [ValueError] on it. *)
Theorem stored_time_round_trip :
  forall dt : datetime,
    valid_datetime dt = true ->
    ((1000 <= year dt)%Z ->
       fixed_form (strftime dt) = true
       /\ strptime (strftime dt) = Ret (to_minute dt))
    /\ ((year dt < 1000)%Z ->
          fixed_form (strftime dt) = false
          /\ strptime (strftime dt) = Raise ValueError).
Proof.
  intros dt Hv. split; intros Hy; split.
  - now apply CalendarFacts.fixed_form_strftime.
  - now apply CalendarFacts.strptime_strftime.
  - now apply CalendarFacts.fixed_form_strftime_short_year.
  - now apply CalendarFacts.strptime_strftime_short_year.
Qed.

Lemma stored_time_round_trip_witness :
  valid_datetime wednesday = true
  /\ (1000 <= year wednesday)%Z
  /\ strftime wednesday = "2024-01-10 14:30"
  /\ strptime (strftime wednesday) = Ret (mkdatetime 2024 1 10 14 30 0 0)
  /\ valid_datetime (mkdatetime 999 1 10 14 30 5 0) = true
  /\ (year (mkdatetime 999 1 10 14 30 5 0) < 1000)%Z
  /\ strftime (mkdatetime 999 1 10 14 30 5 0) = "999-01-10 14:30"
  /\ strptime (strftime (mkdatetime 999 1 10 14 30 5 0)) = Raise ValueError.
Proof.
  assert (H1 : (1000 <= year wednesday)%Z) by (cbn; lia).
  assert (H2 : (year (mkdatetime 999 1 10 14 30 5 0) < 1000)%Z) by (cbn; lia).
  split; [reflexivity|]. split; [exact H1|]. split; [reflexivity|].
  split; [exact (proj2 (proj1 (stored_time_round_trip wednesday eq_refl) H1))|].
  split; [reflexivity|]. split; [exact H2|]. split; [reflexivity|].
  exact (proj2 (proj2 (stored_time_round_trip (mkdatetime 999 1 10 14 30 5 0) eq_refl) H2)).
Defined.

(** X12.  A time the interpreter returns is never empty: it has from
    thirteen to sixteen characters, so the router takes it for a time. *)
Theorem interpreter_answer_is_never_empty :
  forall (now : datetime) (date_parser_parse : string -> outcome datetime)
         (fuzzy_parse : string -> datetime -> outcome datetime) (text0 t : string),
    parse_natural_datetime now date_parser_parse fuzzy_parse text0 = Ret (Some t) ->
    (13 <= String.length t <= 16)%nat /\ truthy (Some t) = Some t.
Proof.
  intros now dp fz text0 t H.
  apply InterpreterFacts.parse_natural_datetime_returns in H.
  destruct H as [dt [-> _]].
  pose proof (CalendarFacts.length_strftime dt) as Hl.
  pose proof (CalendarFacts.length_format_Y (year dt)) as Hy.
  split; [lia|].
  destruct (strftime dt) as [|c r]; [cbn [String.length] in Hl; lia | reflexivity].
Qed.

Lemma interpreter_answer_is_never_empty_witness :
  parse_natural_datetime wednesday Dateutil.parse Dateutil.fuzzy_rejects "tomorrow 3:30pm"
  = Ret (Some "2024-01-11 15:30")
  /\ truthy (Some "2024-01-11 15:30") = Some "2024-01-11 15:30".
Proof.
  split; [reflexivity|].
  exact (proj2 (interpreter_answer_is_never_empty wednesday Dateutil.parse
                  Dateutil.fuzzy_rejects "tomorrow 3:30pm" "2024-01-11 15:30" eq_refl)).
Defined.

(** X13.  The default "9am" is used exactly for a text without any digit;
    a text with a digit always yields a token of the pattern, which is then
    the clock time handed on. *)
Theorem default_clock_only_without_digits :
  forall text : string,
    (no_digit text = true ->
       TimeToken.search text = None /\ token_or_default text = "9am")
    /\ (no_digit text = false ->
          exists g, TimeToken.search text = Some g
                    /\ token_or_default text = g /\ clock_token g).
Proof.
  intros text. unfold token_or_default. split; intros H.
  - apply TokenFacts.search_none in H. now rewrite H.
  - destruct (TimeToken.search text) as [g|] eqn:E.
    + exists g. split; [reflexivity|]. split; [reflexivity|].
      destruct (TokenFacts.search_first_match text g E) as [pre [post [_ [_ Hg]]]].
      exact Hg.
    + apply TokenFacts.search_none in E. congruence.
Qed.

Lemma default_clock_only_without_digits_witness :
  no_digit "tomorrow room 5" = false
  /\ exists g, TimeToken.search "tomorrow room 5" = Some g
               /\ token_or_default "tomorrow room 5" = g /\ clock_token g.
Proof.
  split; [reflexivity|].
  exact (proj2 (default_clock_only_without_digits "tomorrow room 5") eq_refl).
Defined.

Lemma cleanup_old_meetings_fails_on_unreadable_time_witness :
  Exists (fun m => ~ readable m) (meetings_of damaged_ledger)
  /\ cleanup_old_meetings wednesday damaged_ledger = (Raise ValueError, damaged_ledger).
Proof.
  assert (H : Exists (fun m => ~ readable m) (meetings_of damaged_ledger)).
  { apply Exists_cons_tl, Exists_cons_hd. intros [dt Hdt]. discriminate Hdt. }
  split; [exact H|].
  exact (cleanup_old_meetings_fails_on_unreadable_time wednesday damaged_ledger H).
Defined.

Lemma cleanup_old_meetings_later_subsumes_witness :
  Forall readable (meetings_of three_meetings)
  /\ datetime_ltb (mkdatetime 2024 1 10 14 31 0 0) wednesday = false
  /\ snd (cleanup_old_meetings (mkdatetime 2024 1 10 14 31 0 0)
            (snd (cleanup_old_meetings wednesday three_meetings)))
     = mkfiles (Some [mkmeeting "review" "2024-01-11 09:00"]) None.
Proof.
  assert (H : Forall readable (meetings_of three_meetings)).
  { repeat constructor; eexists; reflexivity. }
  split; [exact H|]. split; [reflexivity|].
  exact (cleanup_old_meetings_later_subsumes wednesday (mkdatetime 2024 1 10 14 31 0 0)
           three_meetings H eq_refl).
Defined.

Lemma delete_meeting_after_add_meeting_witness :
  same_title "LUNCH" (mkmeeting "Lunch" "2024-01-12 12:00") = true
  /\ fst (delete_meeting "LUNCH"
            (snd (add_meeting "Lunch" "2024-01-12 12:00" three_meetings)))
     = Ret "Deleted meeting 'LUNCH'.".
Proof.
  split; [reflexivity|].
  exact (proj2 (delete_meeting_after_add_meeting "Lunch" "2024-01-12 12:00" "LUNCH"
                  three_meetings) eq_refl).
Defined.

Lemma cleanup_old_meetings_after_add_meeting_witness :
  valid_datetime wednesday = true
  /\ (1000 <= year wednesday)%Z
  /\ Forall readable (meetings_of no_files)
  /\ cleanup_old_meetings wednesday (snd (add_meeting "now" (strftime wednesday) no_files))
     = (Ret tt, mkfiles (Some []) None).
Proof.
  assert (H1 : (1000 <= year wednesday)%Z) by (cbn; lia).
  split; [reflexivity|]. split; [exact H1|]. split; [constructor|].
  exact (cleanup_old_meetings_after_add_meeting wednesday wednesday "now" no_files
           eq_refl H1 (Forall_nil _)).
Defined.

Lemma cleanup_old_meetings_fails_after_short_year_witness :
  fuzzy_year_999 "999" wednesday = Ret (mkdatetime 999 1 10 14 30 5 0)
  /\ valid_datetime (mkdatetime 999 1 10 14 30 5 0) = true
  /\ (year (mkdatetime 999 1 10 14 30 5 0) < 1000)%Z
  /\ chat_with_ai wednesday Dateutil.parse fuzzy_year_999 llm_unreachable
       "schedule party at 999" no_files
     = (Ret "Meeting 'party' scheduled for 999-01-10 14:30.",
        mkfiles (Some [mkmeeting "party" "999-01-10 14:30"]) (Some []))
  /\ snd (add_meeting "party" (strftime (mkdatetime 999 1 10 14 30 5 0)) no_files)
     = mkfiles (Some [mkmeeting "party" "999-01-10 14:30"]) None
  /\ cleanup_old_meetings wednesday
       (snd (add_meeting "party" (strftime (mkdatetime 999 1 10 14 30 5 0)) no_files))
     = (Raise ValueError,
        snd (add_meeting "party" (strftime (mkdatetime 999 1 10 14 30 5 0)) no_files)).
Proof.
  assert (H2 : (year (mkdatetime 999 1 10 14 30 5 0) < 1000)%Z) by (cbn; lia).
  split; [reflexivity|]. split; [reflexivity|]. split; [exact H2|].
  split; [reflexivity|]. split; [reflexivity|].
  exact (proj2 (proj2 (cleanup_old_meetings_fails_after_short_year wednesday
                         (mkdatetime 999 1 10 14 30 5 0) "party" no_files eq_refl H2))).
Defined.

Lemma plus_days_is_k_days_later_witness :
  plus_days (mkdatetime 2024 2 28 23 59 0 0) 2 = Ret (mkdatetime 2024 3 1 23 59 0 0)
  /\ weekday (mkdatetime 2024 3 1 23 59 0 0) = 4%Z.
Proof.
  split; [reflexivity|].
  exact (proj1 (proj2 (plus_days_is_k_days_later (mkdatetime 2024 2 28 23 59 0 0)
                         (mkdatetime 2024 3 1 23 59 0 0) 2 eq_refl))).
Defined.

Lemma next_weekday_base_date_is_that_weekday_witness :
  plus_days wednesday (days_ahead wednesday 2) = Ret (mkdatetime 2024 1 17 14 30 5 0)
  /\ weekday (mkdatetime 2024 1 17 14 30 5 0) = 2%Z.
Proof.
  split; [reflexivity|].
  exact (proj1 (next_weekday_base_date_is_that_weekday wednesday 2
                  (mkdatetime 2024 1 17 14 30 5 0) ltac:(lia) eq_refl)).
Defined.

Lemma fallback_returns_none_on_failure_witness :
  Text.contains "tomorrow" (Text.strip (Text.lower " Noon ")) = false
  /\ parse_natural_datetime wednesday Dateutil.parse fuzzy_noon " Noon "
     = Ret (Some "2024-01-10 12:00")
  /\ parse_natural_datetime wednesday Dateutil.parse Dateutil.fuzzy_rejects " Noon "
     = Ret None.
Proof.
  assert (H : forall day, In day days_map ->
                Text.contains ("next " ++ day) (Text.strip (Text.lower " Noon ")) = false).
  { intros day Hd. cbn in Hd.
    repeat (destruct Hd as [<-|Hd]; [reflexivity|]). destruct Hd. }
  split; [reflexivity|]. split.
  - exact (fallback_returns_none_on_failure wednesday Dateutil.parse fuzzy_noon
             " Noon " eq_refl H).
  - exact (fallback_returns_none_on_failure wednesday Dateutil.parse
             Dateutil.fuzzy_rejects " Noon " eq_refl H).
Defined.

Lemma tomorrow_branch_lets_exceptions_out_witness :
  Text.contains "tomorrow" (Text.strip (Text.lower "tomorrow 25:00")) = true
  /\ Dateutil.parse "2024-01-11 25:00" = Raise ParserError
  /\ parse_natural_datetime wednesday Dateutil.parse Dateutil.fuzzy_rejects "tomorrow 25:00"
     = Raise ParserError.
Proof.
  split; [reflexivity|]. split; [reflexivity|].
  exact (proj2 (tomorrow_branch_lets_exceptions_out wednesday Dateutil.parse
                  Dateutil.fuzzy_rejects "tomorrow 25:00" eq_refl)
           (mkdatetime 2024 1 11 14 30 5 0) ParserError eq_refl eq_refl).
Defined.

Lemma add_turn_follows_the_interpreter_witness :
  classify "schedule Standup at next friday 10:15" = AddMeeting
  /\ Text.find " at " "schedule Standup at next friday 10:15" = Some 16%nat
  /\ chat_with_ai wednesday Dateutil.parse Dateutil.fuzzy_rejects llm_unreachable
       "schedule Standup at next friday 10:15" no_files
     = (Ret "Meeting 'Standup' scheduled for 2024-01-12 10:15.",
        mkfiles (Some [mkmeeting "Standup" "2024-01-12 10:15"]) (Some [])).
Proof.
  split; [reflexivity|]. split; [reflexivity|].
  exact (add_turn_follows_the_interpreter wednesday Dateutil.parse Dateutil.fuzzy_rejects
           llm_unreachable "schedule Standup at next friday 10:15" 16%nat no_files
           eq_refl eq_refl).
Defined.

Lemma main_stops_at_exit_witness :
  is_exit (Text.strip "  QUIT ") = true
  /\ main wednesday_clock Dateutil.parse Dateutil.fuzzy_rejects llm_unreachable
       ["show meetings"; "  QUIT "; "schedule x at tomorrow 9am"] three_meetings
     = main wednesday_clock Dateutil.parse Dateutil.fuzzy_rejects llm_unreachable
         ["show meetings"; "  QUIT "] three_meetings.
Proof.
  split; [reflexivity|].
  exact (main_stops_at_exit wednesday_clock Dateutil.parse Dateutil.fuzzy_rejects
           llm_unreachable ["show meetings"] "  QUIT " ["schedule x at tomorrow 9am"]
           three_meetings eq_refl).
Defined.

Lemma main_fails_on_unreadable_ledger_witness :
  Exists (fun m => ~ readable m) (meetings_of damaged_ledger)
  /\ main wednesday_clock Dateutil.parse Dateutil.fuzzy_rejects llm_unreachable
       ["show meetings"; "exit"] damaged_ledger
     = (banner, Failed ValueError, damaged_ledger).
Proof.
  assert (H : Exists (fun m => ~ readable m) (meetings_of damaged_ledger)).
  { apply Exists_cons_tl, Exists_cons_hd. intros [dt Hdt]. discriminate Hdt. }
  split; [exact H|].
  exact (main_fails_on_unreadable_ledger wednesday_clock Dateutil.parse
           Dateutil.fuzzy_rejects llm_unreachable ["show meetings"; "exit"]
           damaged_ledger H).
Defined.

Lemma main_fails_only_at_startup_or_in_the_model_witness :
  snd (fst (main wednesday_clock Dateutil.parse Dateutil.fuzzy_rejects llm_unreachable
              ["hello"; "exit"] no_files))
  = Failed LLMError
  /\ ((LLMError = ValueError /\ Exists (fun m => ~ readable m) (meetings_of no_files))
      \/ exists transcript, llm_unreachable transcript = Raise LLMError).
Proof.
  split; [reflexivity|].
  exact (main_fails_only_at_startup_or_in_the_model wednesday_clock Dateutil.parse
           Dateutil.fuzzy_rejects llm_unreachable ["hello"; "exit"] no_files LLMError
           eq_refl).
Defined.

Lemma main_keeps_stored_times_from_strftime_witness :
  Forall written (meetings_of no_files)
  /\ meetings_of
       (snd (main wednesday_clock Dateutil.parse Dateutil.fuzzy_rejects llm_unreachable
               ["schedule standup at tomorrow 9am"; "show meetings"; "quit"] no_files))
     = [mkmeeting "standup" "2024-01-11 09:00"]
  /\ exists dt,
       valid_datetime dt = true
       /\ "2024-01-11 09:00" = strftime dt
       /\ ((1000 <= year dt)%Z -> time_ok (mkmeeting "standup" "2024-01-11 09:00")).
Proof.
  assert (H : Forall written (meetings_of no_files)) by constructor.
  split; [exact H|]. split; [reflexivity|].
  exact (main_keeps_stored_times_from_strftime wednesday_clock Dateutil.parse
           Dateutil.fuzzy_rejects llm_unreachable InterpreterFacts.dateutil_parse_valid
           InterpreterFacts.fuzzy_rejects_valid
           ["schedule standup at tomorrow 9am"; "show meetings"; "quit"] no_files H
           (mkmeeting "standup" "2024-01-11 09:00") (or_introl eq_refl)).
Defined.
